(** * Notion paper archive: the field reconciler and its typed-value
      constructors ([notion_paper_archive.py])

    The development embeds the decision logic of the script: per-kind
    presence of a Notion property, construction of typed property values
    (with the text chunking done by [textwrap.wrap]), the citation
    formatter, the normalisation of a Semantic Scholar search hit and the
    per-page reconciliation step of [NotionPaperArchive.run].

    Conventions.
    - A Python [str] is a [string]; a character is an [ascii] standing for
      the code point of the same number (0..255).  Character classes
      ([str.isspace], the regular-expression classes of [textwrap]) follow
      Unicode on that range.
    - JSON-like Python values are the type [json]; Python [None] is
      [JNull]; a [dict] is an association list in insertion order.
      Floating-point numbers are not represented.
    - A Python exception is the [Raise] outcome of the [result] monad. *)

From Stdlib Require Import ZArith NArith String Ascii List Bool Lia.
From Stdlib Require Import DecimalString.
Import ListNotations.
Open Scope string_scope.

(* ------------------------------------------------------------------ *)
(** ** Exceptions *)

Inductive exn :=
| AttributeError
| TypeError
| KeyError
| IndexError
| ValueError.

Inductive result (A : Type) :=
| Ok (a : A)
| Raise (e : exn).
Arguments Ok {A} a.
Arguments Raise {A} e.

Definition bind {A B} (m : result A) (k : A -> result B) : result B :=
  match m with
  | Ok a => k a
  | Raise e => Raise e
  end.

Notation "x <- m ;; k" := (bind m (fun x => k))
  (at level 61, m at next level, right associativity).

(* ------------------------------------------------------------------ *)
(** ** Python string primitives *)

Module PyStr.

Definition code (c : ascii) : N := N_of_ascii c.

Definition in_range (lo hi : N) (c : ascii) : bool :=
  ((lo <=? code c) && (code c <=? hi))%N.

Definition is_code (n : N) (c : ascii) : bool := (code c =? n)%N.

(** [str.isspace] for one character. *)
Definition isspace (c : ascii) : bool :=
  in_range 9 13 c || in_range 28 32 c || is_code 133 c || is_code 160 c.

(** [s[:n]] and [s[n:]] for [0 <= n]. *)
Fixpoint take (n : nat) (s : string) : string :=
  match n, s with
  | S n', String c r => String c (take n' r)
  | _, _ => ""
  end.

Fixpoint drop (n : nat) (s : string) : string :=
  match n, s with
  | S n', String _ r => drop n' r
  | _, _ => s
  end.

Fixpoint lstrip (s : string) : string :=
  match s with
  | "" => ""
  | String c r => if isspace c then lstrip r else s
  end.

Fixpoint rstrip (s : string) : string :=
  match s with
  | "" => ""
  | String c r =>
      match rstrip r with
      | "" => if isspace c then "" else String c ""
      | r' => String c r'
      end
  end.

(** [s.strip()] *)
Definition strip (s : string) : string := rstrip (lstrip s).

(** [s.split(sep)] for a one-character separator. *)
Fixpoint split (sep : ascii) (s : string) : list string :=
  match s with
  | "" => [""]
  | String c r =>
      if Ascii.eqb c sep then "" :: split sep r
      else match split sep r with
           | h :: t => String c h :: t
           | [] => [String c ""]
           end
  end.

(** [sep.join(parts)] *)
Definition join (sep : string) (parts : list string) : string :=
  String.concat sep parts.

Fixpoint spaces (n : nat) : string :=
  match n with
  | O => ""
  | S n' => String " " (spaces n')
  end.

(** [s.expandtabs(tabsize)], [col] being the current column. *)
Fixpoint expandtabs_from (tabsize col : nat) (s : string) : string :=
  match s with
  | "" => ""
  | String c r =>
      if is_code 9 c then
        if (0 <? tabsize)%nat then
          let incr := tabsize - col mod tabsize in
          spaces incr ++ expandtabs_from tabsize (col + incr) r
        else expandtabs_from tabsize col r
      else
        String c (expandtabs_from tabsize
                    (if is_code 10 c || is_code 13 c then 0 else S col) r)
  end.

Definition expandtabs (tabsize : nat) (s : string) : string :=
  expandtabs_from tabsize 0 s.

Fixpoint map_chars (f : ascii -> ascii) (s : string) : string :=
  match s with
  | "" => ""
  | String c r => String (f c) (map_chars f r)
  end.

Fixpoint filter_chars (f : ascii -> bool) (s : string) : string :=
  match s with
  | "" => ""
  | String c r => if f c then String c (filter_chars f r) else filter_chars f r
  end.

Fixpoint forall_chars (f : ascii -> bool) (s : string) : bool :=
  match s with
  | "" => true
  | String c r => f c && forall_chars f r
  end.

Fixpoint exists_chars (f : ascii -> bool) (s : string) : bool :=
  match s with
  | "" => false
  | String c r => f c || exists_chars f r
  end.

(** [''.join(parts)] *)
Fixpoint concat (parts : list string) : string :=
  match parts with
  | [] => ""
  | p :: rest => p ++ concat rest
  end.

(** [str(n)] for an integer. *)
Definition str_of_int (z : Z) : string := NilZero.string_of_int (Z.to_int z).

(** The string of [n] copies of [c]. *)
Fixpoint replicate (n : nat) (c : ascii) : string :=
  match n with
  | O => ""
  | S n' => String c (replicate n' c)
  end.

End PyStr.

(* ------------------------------------------------------------------ *)
(** ** [textwrap.wrap] with the default options

    [expand_tabs], [replace_whitespace], [drop_whitespace],
    [break_long_words] and [break_on_hyphens] are on, the indents are
    empty, [fix_sentence_endings] is off and [max_lines] is [None]
    (CPython 3.10 and later). *)

Module TextWrap.
Import PyStr.

(** [_whitespace = '\t\n\x0b\x0c\r '] *)
Definition is_whitespace (c : ascii) : bool :=
  in_range 9 13 c || is_code 32 c.

Definition is_hyphen (c : ascii) : bool := is_code 45 c.

(** [\d] *)
Definition is_digit (c : ascii) : bool := in_range 48 57 c.

(** [\w]: alphanumeric (in the sense of [str.isalnum]) or underscore. *)
Definition is_word (c : ascii) : bool :=
  in_range 48 57 c || in_range 65 90 c || in_range 97 122 c || is_code 95 c
  || is_code 170 c || is_code 181 c || is_code 186 c
  || in_range 178 179 c || is_code 185 c || in_range 188 190 c
  || in_range 192 214 c || in_range 216 246 c || in_range 248 255 c.

(** [letter = [^\d\W]] *)
Definition is_letter (c : ascii) : bool := is_word c && negb (is_digit c).

(** [word_punct]: a word character or one of the seven marks
    exclamation, double quote, apostrophe, ampersand, full stop, comma,
    question mark. *)
Definition is_word_punct (c : ascii) : bool :=
  is_word c || is_code 33 c || is_code 34 c || is_code 39 c || is_code 38 c
  || is_code 46 c || is_code 44 c || is_code 63 c.

Definition _munge_whitespace (text : string) : string :=
  map_chars (fun c => if is_whitespace c then " "%char else c)
            (expandtabs 8 text).

(** *** [wordsep_re]

    The pattern has three alternatives, tried in order at a position:
    a run of whitespace; an em-dash between words; a word, possibly
    hyphenated.  At a non-empty position one of them matches, so
    [wordsep_re.split] cuts the text into consecutive matches.
    [before] is the text to the left of the position, last character
    first (the look-behinds read it). *)

Fixpoint ws_run (s : string) : nat :=
  match s with
  | String c r => if is_whitespace c then S (ws_run r) else 0
  | "" => 0
  end.

Fixpoint hyphen_run (s : string) : nat :=
  match s with
  | String c r => if is_hyphen c then S (hyphen_run r) else 0
  | "" => 0
  end.

Definition starts_with (f : ascii -> bool) (s : string) : bool :=
  match s with
  | String c _ => f c
  | "" => false
  end.

Definition last_is (f : ascii -> bool) (before : list ascii) : bool :=
  match before with
  | p :: _ => f p
  | [] => false
  end.

(** [-{2,}(?=\w)] at the head of [s]: the number of hyphens matched. *)
Definition em_dash (s : string) : option nat :=
  let n := hyphen_run s in
  if (2 <=? n)%nat && starts_with is_word (drop n s) then Some n else None.

(** [(?<=letter{2}-) | (?<=letter-letter-)], read just after a hyphen;
    [before] ends before that hyphen. *)
Definition hyphen_behind (before : list ascii) : bool :=
  match before with
  | p1 :: p2 :: rest =>
      is_letter p1 && (is_letter p2 || (is_hyphen p2 && last_is is_letter rest))
  | _ => false
  end.

(** [(?= letter -? letter)] *)
Definition hyphen_ahead (s : string) : bool :=
  match s with
  | String a (String b r) =>
      is_letter a && (is_letter b || (is_hyphen b && starts_with is_letter r))
  | _ => false
  end.

(** The lazy [nowhitespace+?] of the third alternative, after its first
    character: how many more characters the match takes. *)
Fixpoint word_end (before : list ascii) (s : string) : nat :=
  match s with
  | "" => 0
  | String c r =>
      if is_hyphen c && hyphen_behind before && hyphen_ahead r then 1
      else if is_whitespace c then 0
      else if last_is is_word_punct before
              && match em_dash s with Some _ => true | None => false end
           then 0
      else S (word_end (c :: before) r)
  end.

(** Length of the match of [wordsep_re] at the head of [s]. *)
Definition chunk_len (before : list ascii) (s : string) : nat :=
  match s with
  | "" => 0
  | String c r =>
      if is_whitespace c then ws_run s
      else
        match (if last_is is_word_punct before then em_dash s else None) with
        | Some n => n
        | None => S (word_end (c :: before) r)
        end
  end.

Fixpoint split_from (fuel : nat) (before : list ascii) (s : string)
  : list string :=
  match s with
  | "" => []
  | String _ _ =>
      match fuel with
      | O => [s]
      | S fuel' =>
          let n := chunk_len before s in
          take n s
            :: split_from fuel'
                 (rev_append (list_ascii_of_string (take n s)) before)
                 (drop n s)
      end
  end.

(** [_split]: every match is non-empty, so [String.length text] rounds suffice. *)
Definition _split (text : string) : list string :=
  split_from (String.length text) [] text.

Definition _split_chunks (text : string) : list string :=
  _split (_munge_whitespace text).

(** [chunk.strip() == ''] *)
Definition blank (chunk : string) : bool := String.eqb (strip chunk) "".

Definition is_nil {A} (l : list A) : bool :=
  match l with
  | [] => true
  | _ => false
  end.

(** The inner [while chunks] loop: chunks are taken while they fit. *)
Fixpoint fill (width cur_len : nat) (chunks : list string)
  : list string * nat * list string :=
  match chunks with
  | [] => ([], cur_len, [])
  | c :: rest =>
      let l := String.length c in
      if (cur_len + l <=? width)%nat then
        let '(line, n, rest') := fill width (cur_len + l) rest in
        (c :: line, n, rest')
      else ([], cur_len, chunks)
  end.

(** [s.rfind('-', 0, stop)], positions counted from [i]. *)
Fixpoint rfind_hyphen (i stop : nat) (s : string) : option nat :=
  match stop, s with
  | S stop', String c r =>
      match rfind_hyphen (S i) stop' r with
      | Some k => Some k
      | None => if is_hyphen c then Some i else None
      end
  | _, _ => None
  end.

(** [_handle_long_word]: where the chunk that fits on no line is cut.
    [cur_len <= width] holds at the call, so [width - cur_len] does not
    go below zero. *)
Definition long_word_end (chunk : string) (cur_len width : nat) : nat :=
  let space_left := if (width <? 1)%nat then 1 else width - cur_len in
  if (space_left <? String.length chunk)%nat then
    match rfind_hyphen 0 space_left chunk with
    | Some hyphen =>
        if (0 <? hyphen)%nat
           && exists_chars (fun c => negb (is_hyphen c)) (take hyphen chunk)
        then hyphen + 1
        else space_left
    | None => space_left
    end
  else space_left.

Definition _handle_long_word (chunks cur_line : list string)
           (cur_len width : nat) : list string * list string :=
  match chunks with
  | chunk :: rest =>
      let e := long_word_end chunk cur_len width in
      (drop e chunk :: rest, (cur_line ++ [take e chunk])%list)
  | [] => (chunks, cur_line)
  end.

Definition drop_trailing_blank (cur_line : list string) : list string :=
  match rev cur_line with
  | l :: _ => if blank l then removelast cur_line else cur_line
  | [] => cur_line
  end.

(** One round of the outer [while chunks] loop of [_wrap_chunks]. *)
Definition wrap_step (width : nat) (chunks lines : list string)
  : list string * list string :=
  let chunks1 :=
    match chunks with
    | first :: rest =>
        if blank first && negb (is_nil lines) then rest else chunks
    | [] => chunks
    end in
  let '(cur_line, cur_len, chunks2) := fill width 0 chunks1 in
  let '(chunks3, cur_line1) :=
    match chunks2 with
    | c :: _ =>
        if (width <? String.length c)%nat
        then _handle_long_word chunks2 cur_line cur_len width
        else (chunks2, cur_line)
    | [] => (chunks2, cur_line)
    end in
  let cur_line2 := drop_trailing_blank cur_line1 in
  (chunks3,
   if is_nil cur_line2 then lines else (lines ++ [concat cur_line2])%list).

Fixpoint wrap_loop (fuel width : nat) (chunks lines : list string)
  : option (list string) :=
  match chunks with
  | [] => Some lines
  | _ :: _ =>
      match fuel with
      | O => None
      | S fuel' =>
          let '(chunks', lines') := wrap_step width chunks lines in
          wrap_loop fuel' width chunks' lines'
      end
  end.

(** Every round removes a chunk or shortens one. *)
Fixpoint weight (chunks : list string) : nat :=
  match chunks with
  | [] => 0
  | c :: rest => S (String.length c) + weight rest
  end.

(** [weight chunks] rounds are enough ([wrap_loop_total] below), so the
    [None] branch is never taken. *)
Definition _wrap_chunks (width : nat) (chunks : list string)
  : result (list string) :=
  if (width =? 0)%nat then Raise ValueError
  else match wrap_loop (weight chunks) width chunks [] with
       | Some lines => Ok lines
       | None => Ok []
       end.

(** [textwrap.wrap(text, width)] *)
Definition wrap (text : string) (width : nat) : result (list string) :=
  _wrap_chunks width (_split_chunks text).

End TextWrap.

(* ------------------------------------------------------------------ *)
(** ** JSON-like Python values *)

#[local] Set Warnings "-register-all".
Inductive json :=
| JNull
| JBool (b : bool)
| JInt (z : Z)
| JStr (s : string)
| JList (l : list json)
| JDict (d : list (string * json)).

Module Py.
Import PyStr.

(** [bool(v)] *)
Definition truthy (v : json) : bool :=
  match v with
  | JNull => false
  | JBool b => b
  | JInt z => negb (z =? 0)%Z
  | JStr s => negb (s =? "")
  | JList l => negb (TextWrap.is_nil l)
  | JDict d => negb (TextWrap.is_nil d)
  end.

(** [v == s] for a string literal [s]. *)
Definition is_str (s : string) (v : json) : bool :=
  match v with
  | JStr s' => s' =? s
  | _ => false
  end.

Fixpoint assoc (key : string) (d : list (string * json)) : option json :=
  match d with
  | [] => None
  | (k, v) :: rest => if k =? key then Some v else assoc key rest
  end.

(** [d[key] = v] on a dict: an existing key keeps its place. *)
Fixpoint dict_set (d : list (string * json)) (key : string) (v : json)
  : list (string * json) :=
  match d with
  | [] => [(key, v)]
  | (k, v') :: rest =>
      if k =? key then (k, v) :: rest else (k, v') :: dict_set rest key v
  end.

Definition keys (d : list (string * json)) : list string := map fst d.

(** [d.get(key, default)]; an object that is no dict has no [get]. *)
Definition get_default (d : json) (key : string) (default : json)
  : result json :=
  match d with
  | JDict l =>
      Ok (match assoc key l with
          | Some v => v
          | None => default
          end)
  | _ => Raise AttributeError
  end.

(** [d.get(key)] *)
Definition get (d : json) (key : string) : result json :=
  get_default d key JNull.

(** [d.get(key)] where the key is itself a value: lists and dicts are
    unhashable, and no key of a JSON object equals a non-string. *)
Definition get_value (d : json) (key : json) : result json :=
  match d with
  | JDict l =>
      match key with
      | JStr k => get d k
      | JList _ | JDict _ => Raise TypeError
      | _ => Ok JNull
      end
  | _ => Raise AttributeError
  end.

(** [d[key]] for a string key. *)
Definition getitem (d : json) (key : string) : result json :=
  match d with
  | JDict l =>
      match assoc key l with
      | Some v => Ok v
      | None => Raise KeyError
      end
  | _ => Raise TypeError
  end.

(** [v[0]] *)
Definition first_item (v : json) : result json :=
  match v with
  | JList (x :: _) => Ok x
  | JList [] => Raise IndexError
  | JStr (String c _) => Ok (JStr (String c ""))
  | JStr "" => Raise IndexError
  | JDict _ => Raise KeyError
  | _ => Raise TypeError
  end.

(** The items a [for] loop (or [list(v)]) draws from [v]. *)
Definition iter (v : json) : result (list json) :=
  match v with
  | JList l => Ok l
  | JStr s => Ok (map (fun c => JStr (String c "")) (list_ascii_of_string s))
  | JDict d => Ok (map JStr (keys d))
  | _ => Raise TypeError
  end.

Fixpoint mapM {A B} (f : A -> result B) (l : list A) : result (list B) :=
  match l with
  | [] => Ok []
  | x :: rest => y <- f x ;; ys <- mapM f rest ;; Ok (y :: ys)
  end.

(** An item handed to [str.join] must be a string. *)
Definition as_str (v : json) : result string :=
  match v with
  | JStr s => Ok s
  | _ => Raise TypeError
  end.

(** *** [repr] and [str] *)

Definition apostrophe : ascii := ascii_of_N 39.
Definition dquote : ascii := ascii_of_N 34.
Definition backslash : ascii := ascii_of_N 92.

Definition hex_digit (n : N) : ascii :=
  if (n <? 10)%N then ascii_of_N (48 + n) else ascii_of_N (87 + n).

Definition hex_escape (c : ascii) : string :=
  String backslash
    (String "x" (String (hex_digit (code c / 16))
                        (String (hex_digit (code c mod 16)) ""))).

Definition printable (c : ascii) : bool :=
  negb (in_range 0 31 c || in_range 127 160 c || is_code 173 c).

Definition repr_char (quote c : ascii) : string :=
  if Ascii.eqb c quote || Ascii.eqb c backslash then String backslash (String c "")
  else if is_code 9 c then String backslash "t"
  else if is_code 10 c then String backslash "n"
  else if is_code 13 c then String backslash "r"
  else if printable c then String c ""
  else hex_escape c.

Definition repr_str (s : string) : string :=
  let quote :=
    if exists_chars (Ascii.eqb apostrophe) s
       && negb (exists_chars (Ascii.eqb dquote) s)
    then dquote else apostrophe in
  String quote
    (concat (map (repr_char quote) (list_ascii_of_string s))
     ++ String quote "").

Fixpoint repr (v : json) : string :=
  match v with
  | JNull => "None"
  | JBool true => "True"
  | JBool false => "False"
  | JInt z => str_of_int z
  | JStr s => repr_str s
  | JList l => "[" ++ join ", " (map repr l) ++ "]"
  | JDict d =>
      "{" ++ join ", " (map (fun kv => repr_str (fst kv) ++ ": " ++ repr (snd kv)) d)
          ++ "}"
  end.

(** [str(v)], also what an f-string field formats to. *)
Definition str (v : json) : string :=
  match v with
  | JStr s => s
  | _ => repr v
  end.

End Py.

(* ------------------------------------------------------------------ *)
(** ** The program *)

Import PyStr Py.

(** [PropertyConfig]: the Notion property name of each logical field. *)
Module PropertyConfig.
Record t := {
  title : string;
  authors : option string;
  published : option string;
  venue : option string;
  citation : option string;
  abstract : option string
}.
End PropertyConfig.

Definition default_props : PropertyConfig.t :=
  {| PropertyConfig.title := "Name";
     PropertyConfig.authors := Some "Author";
     PropertyConfig.published := Some "Year";
     PropertyConfig.venue := Some "Venue";
     PropertyConfig.citation := Some "Citation";
     PropertyConfig.abstract := Some "Abstract" |}.

(** The update payload, a dict from property name to property value. *)
Definition payload := list (string * json).

(** *** [property_has_value] *)

Definition property_has_value (prop : json) : result bool :=
  prop_type <- get prop "type" ;;
  value <- get_value prop prop_type ;;
  match value with
  | JNull => Ok false
  | _ =>
      if is_str "title" prop_type || is_str "rich_text" prop_type
         || is_str "multi_select" prop_type
      then Ok (truthy value)
      else if is_str "date" prop_type
      then start <- get value "start" ;; Ok (truthy start)
      else Ok false
  end.

(** *** [build_rich_text] *)

Definition text_segment (chunk : string) : json :=
  JDict [("type", JStr "text"); ("text", JDict [("content", JStr chunk)])].

Definition build_rich_text (value : json) : result (list json) :=
  let value :=
    match value with
    | JList l => JStr (join ", " (map str l))
    | _ => value
    end in
  match value with
  | JNull => Ok []
  | JStr s =>
      let text := strip s in
      if text =? "" then Ok []
      else
        wrapped <- TextWrap.wrap text 1800 ;;
        let chunks := if TextWrap.is_nil wrapped then [text] else wrapped in
        Ok (map text_segment chunks)
  | _ => Raise AttributeError
  end.

(** *** [build_property_value] *)

Definition tag (v : json) : json := JDict [("name", v)].

Definition split_tags (value : string) : list string :=
  filter (fun part => negb (part =? ""))
         (map strip (split "," value)).

Definition build_property_value (prop value : json) : result json :=
  if match value with JNull => true | _ => is_str "" value end then Ok JNull
  else if negb (truthy prop) then Ok JNull
  else
    prop_type <- get prop "type" ;;
    if is_str "rich_text" prop_type then
      segs <- build_rich_text value ;; Ok (JDict [("rich_text", JList segs)])
    else if is_str "title" prop_type then
      segs <- build_rich_text value ;; Ok (JDict [("title", JList segs)])
    else if is_str "multi_select" prop_type then
      values <- match value with
                | JStr s => Ok (map JStr (split_tags s))
                | _ => iter value
                end ;;
      Ok (JDict [("multi_select", JList (map tag (firstn 100 values)))])
    else if is_str "date" prop_type then
      match value with
      | JStr _ => Ok (JDict [("date", JDict [("start", value)])])
      | _ => Ok JNull
      end
    else Ok JNull.

(** *** [format_citation] *)

Definition format_citation (title : json) (authors : list string)
           (year venue : json) : json :=
  if negb (truthy title) then JNull
  else
    let main_authors := firstn 3 authors in
    let author_text :=
      if TextWrap.is_nil main_authors then "Unknown"
      else if (List.length authors <=? 3)%nat then join ", " main_authors
      else join ", " main_authors ++ " et al." in
    let venue_part := if truthy venue then " " ++ str venue ++ "." else "" in
    let year_part := if truthy year then " (" ++ str year ++ ")" else "" in
    JStr (strip (author_text ++ year_part ++ ". " ++ str title ++ "."
                 ++ venue_part)).

(** *** [fetch_metadata]

    The HTTP exchange is a parameter: [search] gives the response of the
    Semantic Scholar endpoint to a query. *)

Record response := {
  ok : bool;
  status_code : Z;
  body : json
}.

(** The author names of a search hit: [author.get("name", "").strip()]
    for the authors whose name is truthy. *)
Fixpoint author_names (authors : list json) : result (list string) :=
  match authors with
  | [] => Ok []
  | author :: rest =>
      name <- get author "name" ;;
      if truthy name then
        name' <- get_default author "name" (JStr "") ;;
        match name' with
        | JStr s => names <- author_names rest ;; Ok (strip s :: names)
        | _ => Raise AttributeError
        end
      else author_names rest
  end.

(** [a or b], [b] being evaluated only when [a] is falsy. *)
Definition or_else (a : json) (b : unit -> result json) : result json :=
  if truthy a then Ok a else b tt.

(** The part of [fetch_metadata] after the top hit is taken. *)
Definition normalize (title : string) (paper : json) : result json :=
  author_list <- get_default paper "authors" (JList []) ;;
  author_items <- iter author_list ;;
  authors <- author_names author_items ;;
  direct_venue <- get paper "venue" ;;
  venue <- or_else direct_venue
             (fun _ => pv <- get_default paper "publicationVenue" (JDict []) ;;
                       get pv "name") ;;
  year <- get paper "year" ;;
  date <- get paper "publicationDate" ;;
  publication_date <-
    or_else date
      (fun _ => Ok (if truthy year then JStr (str year ++ "-01-01") else JNull)) ;;
  paper_title <- get paper "title" ;;
  let citation := format_citation paper_title authors year venue in
  meta_title <- get_default paper "title" (JStr title) ;;
  abstract <- get paper "abstract" ;;
  Ok (JDict [("title", meta_title);
             ("authors", JList (map JStr authors));
             ("venue", venue);
             ("year", year);
             ("publication_date", publication_date);
             ("citation", citation);
             ("abstract", abstract)]).

Definition fetch_metadata (search : string -> response) (title : string)
  : result json :=
  let response := search title in
  if negb (ok response) then Ok JNull
  else
    let data := body response in
    found <- get data "data" ;;
    papers <- or_else found (fun _ => Ok (JList [])) ;;
    if negb (truthy papers) then Ok JNull
    else paper <- first_item papers ;; normalize title paper.

(** *** The methods of [NotionPaperArchive] *)

Section Archive.

Variable props : PropertyConfig.t.

(** [if not prop_name] *)
Definition configured (prop_name : option string) : option string :=
  match prop_name with
  | Some n => if n =? "" then None else Some n
  | None => None
  end.

Definition tracked : list (option string) :=
  [PropertyConfig.authors props; PropertyConfig.published props;
   PropertyConfig.venue props; PropertyConfig.citation props;
   PropertyConfig.abstract props].

(** [page.get("properties", {})] *)
Definition properties_of (page : json) : result json :=
  get_default page "properties" (JDict []).

Fixpoint missing_loop (properties : json) (attrs : list (option string))
         (missing : list string) : result (list string) :=
  match attrs with
  | [] => Ok missing
  | attr :: rest =>
      match configured attr with
      | None => missing_loop properties rest missing
      | Some prop_name =>
          prop <- get properties prop_name ;;
          if negb (truthy prop) then missing_loop properties rest missing
          else
            has <- property_has_value prop ;;
            missing_loop properties rest
              (if has then missing else (missing ++ [prop_name])%list)
      end
  end.

Definition _missing_fields (page : json) : result (list string) :=
  properties <- properties_of page ;;
  missing_loop properties tracked [].

Definition _extract_title (page : json) : result string :=
  properties <- properties_of page ;;
  title_prop <- get properties (PropertyConfig.title props) ;;
  if negb (truthy title_prop) then Ok ""
  else
    kind <- getitem title_prop "type" ;;
    if negb (is_str "title" kind) then Ok ""
    else
      segs <- getitem title_prop "title" ;;
      parts <- iter segs ;;
      texts <- mapM (fun part => get_default part "plain_text" (JStr "")) parts ;;
      strs <- mapM as_str texts ;;
      Ok (strip (concat strs)).

(** The local function [maybe_set] of [_build_update_payload]; the
    payload it closes over is passed and returned. *)
Definition maybe_set (properties : json) (acc : payload)
           (prop_name : option string) (value_builder : unit -> result json)
  : result payload :=
  match configured prop_name with
  | None => Ok acc
  | Some name =>
      prop <- get properties name ;;
      if negb (truthy prop) then Ok acc
      else
        has <- property_has_value prop ;;
        if has then Ok acc
        else
          value <- value_builder tt ;;
          match value with
          | JNull => Ok acc
          | _ => Ok (dict_set acc name value)
          end
  end.

(** The argument of the [lambda]s: [properties.get(name)] with the
    configured name, which may be [None]. *)
Definition get_opt (properties : json) (name : option string) : result json :=
  match name with
  | Some n => get properties n
  | None => get_value properties JNull
  end.

Definition builder (properties metadata : json) (prop_name : option string)
           (field : string) : unit -> result json :=
  fun _ =>
    prop <- get_opt properties prop_name ;;
    value <- get metadata field ;;
    build_property_value prop value.

Definition _build_update_payload (page metadata : json) : result payload :=
  properties <- properties_of page ;;
  let set acc prop_name field :=
    maybe_set properties acc prop_name
              (builder properties metadata prop_name field) in
  p1 <- set [] (PropertyConfig.authors props) "authors" ;;
  p2 <- set p1 (PropertyConfig.published props) "publication_date" ;;
  p3 <- set p2 (PropertyConfig.venue props) "venue" ;;
  p4 <- set p3 (PropertyConfig.citation props) "citation" ;;
  set p4 (PropertyConfig.abstract props) "abstract".

(** The body of the loop of [run] up to the payload, for one page:
    the titles looked up, in order, and the payload ([[]] where the loop
    moves on to the next page). *)
Definition reconcile (lookup : string -> result json) (page : json)
  : list string * result payload :=
  match _extract_title page with
  | Raise e => ([], Raise e)
  | Ok title =>
      if title =? "" then ([], Ok [])
      else
        match _missing_fields page with
        | Raise e => ([], Raise e)
        | Ok missing_fields =>
            if TextWrap.is_nil missing_fields then ([], Ok [])
            else
              match lookup title with
              | Raise e => ([title], Raise e)
              | Ok metadata =>
                  if negb (truthy metadata) then ([title], Ok [])
                  else ([title], _build_update_payload page metadata)
              end
        end
  end.

End Archive.

(** *** [run]

    The pages come from the record source in order; [lookup] stands for
    [fetch_metadata] and [patch] for the outcome of the PATCH request of
    [_patch_page].  The trace lists the outbound calls made. *)

Inductive event :=
| Lookup (title : string)
| Patch (page_id : json) (properties : payload).

Fixpoint run_loop (props : PropertyConfig.t)
         (lookup : string -> result json)
         (patch : json -> payload -> result unit)
         (dry_run : bool) (pages : list json)
         (trace : list event) (updated : Z) : list event * result Z :=
  match pages with
  | [] => (trace, Ok updated)
  | page :: rest =>
      let '(queries, outcome) := reconcile props lookup page in
      let trace := (trace ++ map Lookup queries)%list in
      match outcome with
      | Raise e => (trace, Raise e)
      | Ok update =>
          if TextWrap.is_nil update || dry_run
          then run_loop props lookup patch dry_run rest trace updated
          else
            match getitem page "id" with
            | Raise e => (trace, Raise e)
            | Ok page_id =>
                let trace := (trace ++ [Patch page_id update])%list in
                match patch page_id update with
                | Raise e => (trace, Raise e)
                | Ok _ =>
                    run_loop props lookup patch dry_run rest trace
                             (updated + 1)%Z
                end
            end
      end
  end.

Definition run (props : PropertyConfig.t)
           (lookup : string -> result json)
           (patch : json -> payload -> result unit)
           (dry_run : bool) (pages : list json) : list event * result Z :=
  run_loop props lookup patch dry_run pages [] 0%Z.

(** *** The record after an update

    The record sink is an external service.  Following section 6 of the
    specification, it applies the update it is sent: every property
    named in the update takes the entries of the value sent for it, and
    the other properties are left as they were. *)



(** *** [_iter_pages]

    [post] stands for the POST request to the query endpoint followed by
    [raise_for_status] and [response.json()]: the decoded body for the
    request payload sent, or the exception raised.  [run] drains the
    generator with [list], so the model gives the records yielded up to
    the end of the loop, or the exception that ends it, beside the
    request payloads sent.  The [while True] loop is bounded by [fuel]:
    [None] stands for a loop that has not ended within the bound. *)

(** [yield from data.get("results", [])] *)
Definition records_of (data : json) : result (list json) :=
  results <- get_default data "results" (JList []) ;;
  iter results.

Fixpoint iter_pages_loop (post : payload -> result json) (fuel : nat)
         (request : payload) (sent : list payload) (yielded : list json)
  : list payload * option (result (list json)) :=
  match fuel with
  | O => (sent, None)
  | S fuel =>
      let sent := (sent ++ [request])%list in
      match post request with
      | Raise e => (sent, Some (Raise e))
      | Ok data =>
          match records_of data with
          | Raise e => (sent, Some (Raise e))
          | Ok records =>
              let yielded := (yielded ++ records)%list in
              match get data "has_more" with
              | Raise e => (sent, Some (Raise e))
              | Ok has_more =>
                  if negb (truthy has_more) then (sent, Some (Ok yielded))
                  else
                    match getitem data "next_cursor" with
                    | Raise e => (sent, Some (Raise e))
                    | Ok cursor =>
                        iter_pages_loop post fuel
                          (dict_set request "start_cursor" cursor)
                          sent yielded
                    end
              end
          end
      end
  end.

Definition first_request : payload := [("page_size", JInt 100)].

Definition _iter_pages (post : payload -> result json) (fuel : nat)
  : list payload * option (result (list json)) :=
  iter_pages_loop post fuel first_request [] [].

(** *** [run], from the record source

    [run] starts with [pages = list(self._iter_pages())]: an exception
    of the record source ends the run before the first page is looked
    at. *)

Definition run_archive (props : PropertyConfig.t)
           (post : payload -> result json)
           (lookup : string -> result json)
           (patch : json -> payload -> result unit)
           (dry_run : bool) (fuel : nat)
  : option (list payload * list event * result Z) :=
  match _iter_pages post fuel with
  | (sent, None) => None
  | (sent, Some (Raise e)) => Some (sent, [], Raise e)
  | (sent, Some (Ok pages)) =>
      let '(trace, r) := run props lookup patch dry_run pages in
      Some (sent, trace, r)
  end.

(* ------------------------------------------------------------------ *)
(** ** Vocabulary of the statements, and sample data *)

Definition nonspace (c : ascii) : bool := negb (isspace c).

(** The text without its whitespace characters. *)
Definition squeeze (s : string) : string := filter_chars nonspace s.

Definition spaceless (s : string) : Prop := forall_chars nonspace s = true.

Definition fits (width : nat) (line : string) : Prop :=
  String.length line <= width.

(** A chunk with a character in it. *)
Definition filled (c : string) : Prop := c <> "".



(** A property the reconciler may fill: it is on the record and holds
    no value. *)
Definition fillable (properties : json) (name : string) : Prop :=
  exists prop,
    get properties name = Ok prop
    /\ truthy prop = true
    /\ property_has_value prop = Ok false.

(** A property holds a value, in the words of the specification: a
    title, rich-text or multi-select property whose value is not empty,
    or a date property whose value has a start. *)
Definition holds_value (prop : json) : Prop :=
  exists kind value,
    get prop "type" = Ok (JStr kind)
    /\ get prop kind = Ok value
    /\ (((kind = "title" \/ kind = "rich_text" \/ kind = "multi_select")
         /\ truthy value = true)
        \/ (kind = "date"
            /\ exists start, get value "start" = Ok start
                             /\ truthy start = true)).

Definition sample_page : json :=
  JDict
    [("id", JStr "page-1");
     ("properties",
      JDict
        [("Name",
          JDict [("type", JStr "title");
                 ("title", JList [JDict [("plain_text", JStr "Foo Bar")]])]);
         ("Author",
          JDict [("type", JStr "multi_select");
                 ("multi_select", JList [JDict [("name", JStr "K. Roe")]])]);
         ("Year", JDict [("type", JStr "date"); ("date", JNull)]);
         ("Venue", JDict [("type", JStr "rich_text"); ("rich_text", JList [])]);
         ("Abstract",
          JDict [("type", JStr "rich_text"); ("rich_text", JList [])])])].

Definition sample_metadata : json :=
  JDict
    [("title", JStr "Foo Bar");
     ("authors", JList [JStr "J. Doe"]);
     ("venue", JStr "ICML");
     ("year", JInt 2021);
     ("publication_date", JStr "2021-01-01");
     ("citation", JStr "J. Doe (2021). Foo Bar. ICML.");
     ("abstract", JStr "Lorem ipsum")].

(** The value of a computation that does not raise. *)
Definition value_or {A} (default : A) (r : result A) : A :=
  match r with
  | Ok a => a
  | Raise _ => default
  end.

(** What [_build_update_payload] can store under [name]: a value built
    for the tracked, empty property of that name from a field of the
    metadata. *)
Definition built_for (props : PropertyConfig.t) (properties metadata : json)
           (name : string) (v : json) : Prop :=
  In (Some name) (tracked props) /\ name <> ""
  /\ fillable properties name
  /\ exists prop field value,
      get properties name = Ok prop
      /\ get metadata field = Ok value
      /\ build_property_value prop value = Ok v
      /\ v <> JNull.

(** Every tracked property that is on the record holds a value. *)
Definition fully_populated (props : PropertyConfig.t) (page : json) : Prop :=
  forall properties name prop,
    properties_of page = Ok properties ->
    In (Some name) (tracked props) ->
    name <> "" ->
    get properties name = Ok prop ->
    truthy prop = true ->
    holds_value prop.

Definition filled_page : json :=
  JDict
    [("id", JStr "page-2");
     ("properties",
      JDict
        [("Name",
          JDict [("type", JStr "title");
                 ("title", JList [JDict [("plain_text", JStr "Foo Bar")]])]);
         ("Author",
          JDict [("type", JStr "multi_select");
                 ("multi_select", JList [JDict [("name", JStr "K. Roe")]])]);
         ("Year",
          JDict [("type", JStr "date");
                 ("date", JDict [("start", JStr "2021-01-01")])])])].



Definition first_update : payload :=
  value_or [] (_build_update_payload default_props sample_page sample_metadata).



(** The kinds [build_property_value] constructs a value for. *)
Definition supported (kind : json) : bool :=
  is_str "rich_text" kind || is_str "title" kind
  || is_str "multi_select" kind || is_str "date" kind.

(** The roles [_build_update_payload] goes through, each with the
    property name configured for it and the field of the metadata it
    takes its value from. *)
Definition roles (props : PropertyConfig.t) : list (option string * string) :=
  [(PropertyConfig.authors props, "authors");
   (PropertyConfig.published props, "publication_date");
   (PropertyConfig.venue props, "venue");
   (PropertyConfig.citation props, "citation");
   (PropertyConfig.abstract props, "abstract")].

(** A raw value with no text in it that is not taken for an absent one:
    an empty list, or a non-empty string of whitespace only. *)
Definition blank_text (value : json) : Prop :=
  value = JList [] \/ exists s, value = JStr s /\ s <> "" /\ strip s = "".

(** The metadata of a paper whose venue is a blank string. *)
Definition blank_venue_metadata : json :=
  JDict
    [("title", JStr "Foo Bar");
     ("authors", JList [JStr "J. Doe"]);
     ("venue", JStr "  ");
     ("year", JNull);
     ("publication_date", JNull);
     ("citation", JStr "J. Doe. Foo Bar.   .");
     ("abstract", JNull)].

(** The three clauses of a citation, in the words of the specification.
    A year of zero and an empty venue count as absent. *)
Definition author_clause (authors : list string) : string :=
  match authors with
  | [] => "Unknown"
  | _ =>
      join ", " (firstn 3 authors)
      ++ (if (3 <? List.length authors)%nat then " et al." else "")
  end.

Definition year_clause (year : option Z) : string :=
  match year with
  | Some y => if (y =? 0)%Z then "" else " (" ++ str_of_int y ++ ")"
  | None => ""
  end.

Definition venue_clause (venue : option string) : string :=
  match venue with
  | Some v => if v =? "" then "" else " " ++ v ++ "."
  | None => ""
  end.

Definition of_int (o : option Z) : json :=
  match o with
  | Some z => JInt z
  | None => JNull
  end.

Definition of_str (o : option string) : json :=
  match o with
  | Some s => JStr s
  | None => JNull
  end.

(** [result] is [text] without its leading and trailing whitespace:
    whitespace only is cut at both ends, and [result] neither starts nor
    ends with a whitespace character. *)
Definition trimmed_of (text result : string) : Prop :=
  exists lead trail,
    text = lead ++ result ++ trail
    /\ forall_chars isspace lead = true
    /\ forall_chars isspace trail = true
    /\ (forall c r, result = String c r -> isspace c = false)
    /\ (forall a c, result = a ++ String c "" -> isspace c = false).


Definition nonempty (part : string) : bool := negb (part =? "").


(** The search answered the query for [title] with [paper] as its first
    result. *)
Definition top_hit (search : string -> response) (title : string)
           (paper : json) : Prop :=
  ok (search title) = true
  /\ exists rest, get (body (search title)) "data" = Ok (JList (paper :: rest)).

(** The publication date in the words of the specification; an empty
    date string and a year of zero count as absent. *)
Definition publication_date_spec (date : option string) (year : option Z)
  : json :=
  match date with
  | Some (String c d) => JStr (String c d)
  | _ =>
      match year with
      | Some y => if (y =? 0)%Z then JNull else JStr (str_of_int y ++ "-01-01")
      | None => JNull
      end
  end.

Definition search_one (paper : json) : string -> response :=
  fun _ => {| ok := true; status_code := 200;
              body := JDict [("total", JInt 1); ("data", JList [paper])] |}.

(* ------------------------------------------------------------------ *)
(** ** Vocabulary of the further properties, and sample data *)

(** An author object of the search API with the given name. *)
Definition names_author (author : json) (name : string) : Prop :=
  exists fields, author = JDict fields /\ assoc "name" fields = Some (JStr name).

Definition dict_keys (v : json) : list string :=
  match v with
  | JDict d => keys d
  | _ => []
  end.

Definition null_venue_paper : json :=
  JDict [("title", JStr "Foo Bar"); ("venue", JStr "");
         ("publicationVenue", JNull)].

Definition is_patch (e : event) : bool :=
  match e with
  | Patch _ _ => true
  | Lookup _ => false
  end.

Definition is_lookup (e : event) : bool :=
  match e with
  | Lookup _ => true
  | Patch _ _ => false
  end.

Definition patches (trace : list event) : list event := filter is_patch trace.

Definition lookups (trace : list event) : list event := filter is_lookup trace.

(** What [run_loop] adds to the trace. *)
Definition run_facts (props : PropertyConfig.t)
           (lookup : string -> result json) (dry_run : bool)
           (pages : list json) (updated : Z) (new : list event)
           (r : result Z) : Prop :=
  List.length (lookups new) <= List.length pages
  /\ List.length (patches new) <= List.length (lookups new)
  /\ (dry_run = true -> patches new = [])
  /\ (forall n, r = Ok n -> n = (updated + Z.of_nat (List.length (patches new)))%Z)
  /\ (forall id update,
         In (Patch id update) new ->
         update <> []
         /\ exists page,
             In page pages /\ getitem page "id" = Ok id
             /\ snd (reconcile props lookup page) = Ok update)
  /\ (forall title,
         In (Lookup title) new ->
         exists page,
           In page pages /\ _extract_title props page = Ok title
           /\ title <> "").

Definition always_ok : json -> payload -> result unit := fun _ _ => Ok tt.

Definition sample_lookup : string -> result json := fun _ => Ok sample_metadata.

Definition padded_title_page : json :=
  JDict
    [("id", JStr "page-4");
     ("properties",
      JDict
        [("Name",
          JDict [("type", JStr "title");
                 ("title", JList [JDict [("plain_text", JStr " Foo ")];
                                  JDict [("href", JNull)];
                                  JDict [("plain_text", JStr "Bar  ")]])]);
         ("Venue", JDict [("type", JStr "rich_text"); ("rich_text", JList [])])])].

(** The request that follows [request] when the response names a
    cursor. *)
Definition next_request (cursor : json) : payload :=
  [("page_size", JInt 100); ("start_cursor", cursor)].

(** [request'] is the request [_iter_pages] sends after [request]. *)
Definition follows (post : payload -> result json)
           (request request' : payload) : Prop :=
  exists data has_more cursor,
    post request = Ok data
    /\ get data "has_more" = Ok has_more /\ truthy has_more = true
    /\ getitem data "next_cursor" = Ok cursor
    /\ request' = next_request cursor.

Fixpoint chained (post : payload -> result json) (requests : list payload)
  : Prop :=
  match requests with
  | r :: ((r' :: _) as rest) => follows post r r' /\ chained post rest
  | _ => True
  end.

Definition paged (request : payload) : Prop :=
  request = first_request \/ exists cursor, request = next_request cursor.

(** A record source that serves the given batches one per request: the
    cursor of a response is the number of the next batch. *)
Definition cursor_of (request : payload) : nat :=
  match assoc "start_cursor" request with
  | Some (JInt z) => Z.to_nat z
  | _ => 0
  end.

Definition paged_server (batches : list (list json)) (request : payload)
  : result json :=
  let i := cursor_of request in
  let more := (S i <? List.length batches)%nat in
  Ok (JDict [("object", JStr "list");
             ("results", JList (nth i batches []));
             ("next_cursor", if more then JInt (Z.of_nat (S i)) else JNull);
             ("has_more", JBool more)]).

(** A record source whose second page cannot be fetched. *)
Definition failing_server (request : payload) : result json :=
  match assoc "start_cursor" request with
  | None =>
      Ok (JDict [("results", JList [sample_page]);
                 ("next_cursor", JStr "c1"); ("has_more", JBool true)])
  | Some _ => Raise ValueError
  end.

(** A record whose year is kept in a number property. *)
Definition number_year_page : json :=
  JDict
    [("id", JStr "page-5");
     ("properties",
      JDict
        [("Name",
          JDict [("type", JStr "title");
                 ("title", JList [JDict [("plain_text", JStr "Foo Bar")]])]);
         ("Year", JDict [("type", JStr "number"); ("number", JNull)])])].

(* ------------------------------------------------------------------ *)
(** ** Facts about the string primitives *)

Module PyStrFacts.
Import PyStr.

Lemma append_nil_r (s : string) : s ++ "" = s.
Proof. induction s; simpl; congruence. Qed.

Lemma append_assoc (a b c : string) : (a ++ b) ++ c = a ++ (b ++ c).
Proof. induction a; simpl; congruence. Qed.

Lemma length_append (a b : string) :
  String.length (a ++ b) = String.length a + String.length b.
Proof. induction a; simpl; congruence. Qed.

Lemma take_drop (n : nat) (s : string) : take n s ++ drop n s = s.
Proof.
  revert s; induction n as [|n IH]; intros [|c r]; simpl; try reflexivity.
  now rewrite IH.
Qed.

Lemma length_take (n : nat) (s : string) :
  String.length (take n s) = Nat.min n (String.length s).
Proof.
  revert s; induction n as [|n IH]; intros [|c r]; simpl; try reflexivity.
  now rewrite IH.
Qed.

Lemma length_drop (n : nat) (s : string) :
  String.length (drop n s) = String.length s - n.
Proof.
  revert s; induction n as [|n IH]; intros [|c r]; simpl; try reflexivity.
  apply IH.
Qed.

Lemma filter_chars_app (f : ascii -> bool) (a b : string) :
  filter_chars f (a ++ b) = filter_chars f a ++ filter_chars f b.
Proof.
  induction a as [|c r IH]; simpl; [reflexivity|].
  destruct (f c); simpl; now rewrite IH.
Qed.

Lemma forall_chars_app (f : ascii -> bool) (a b : string) :
  forall_chars f (a ++ b) = forall_chars f a && forall_chars f b.
Proof.
  induction a as [|c r IH]; simpl; [reflexivity|].
  rewrite IH. now rewrite andb_assoc.
Qed.

Lemma filter_chars_all (f : ascii -> bool) (s : string) :
  forall_chars f s = true -> filter_chars f s = s.
Proof.
  induction s as [|c r IH]; simpl; [reflexivity|].
  intros H. apply andb_prop in H as [Hc Hr]. rewrite Hc. now rewrite IH.
Qed.

Lemma filter_chars_none (f : ascii -> bool) (s : string) :
  forall_chars (fun c => negb (f c)) s = true -> filter_chars f s = "".
Proof.
  induction s as [|c r IH]; simpl; [reflexivity|].
  intros H. apply andb_prop in H as [Hc Hr].
  apply negb_true_iff in Hc. rewrite Hc. now apply IH.
Qed.

Lemma concat_app (a b : list string) :
  concat (a ++ b) = concat a ++ concat b.
Proof.
  induction a as [|x r IH]; simpl; [reflexivity|].
  now rewrite IH, append_assoc.
Qed.

(** What [lstrip] and [rstrip] remove is whitespace only. *)
Lemma lstrip_blank (s : string) :
  lstrip s = "" -> forall_chars isspace s = true.
Proof.
  induction s as [|c r IH]; simpl; [reflexivity|].
  destruct (isspace c); simpl; [exact IH | discriminate].
Qed.

Lemma rstrip_blank (s : string) :
  rstrip s = "" -> forall_chars isspace s = true.
Proof.
  induction s as [|c r IH]; simpl; [reflexivity|].
  destruct (rstrip r) eqn:E; [|discriminate].
  destruct (isspace c); simpl; [intros _; now apply IH | discriminate].
Qed.

Lemma lstrip_suffix (s : string) :
  exists p, s = p ++ lstrip s /\ forall_chars isspace p = true.
Proof.
  induction s as [|c r IH]; simpl.
  - now exists "".
  - destruct (isspace c) eqn:E.
    + destruct IH as [p [Hp Hs]]. exists (String c p). simpl.
      rewrite E, Hs. split; [now rewrite <- Hp | reflexivity].
    + now exists "".
Qed.

Lemma rstrip_prefix (s : string) :
  exists q, s = rstrip s ++ q /\ forall_chars isspace q = true.
Proof.
  induction s as [|c r IH]; simpl.
  - now exists "".
  - destruct IH as [q [Hq Hs]].
    destruct (rstrip r) eqn:E; simpl in Hq.
    + destruct (isspace c) eqn:Ec.
      * exists (String c r). simpl. rewrite Ec. split; [reflexivity|].
        now rewrite Hq.
      * exists q. simpl. split; [now rewrite <- Hq | exact Hs].
    + exists q. split; [|exact Hs]. simpl. now rewrite <- Hq.
Qed.

(** [chunk.strip() == ''] holds exactly of the whitespace-only strings. *)
Lemma strip_blank_iff (s : string) :
  strip s = "" <-> forall_chars isspace s = true.
Proof.
  unfold strip. split.
  - intros H. apply rstrip_blank in H.
    destruct (lstrip_suffix s) as [p [Hp Hs]].
    rewrite Hp, forall_chars_app, Hs, H. reflexivity.
  - intros H.
    assert (forall t, forall_chars isspace t = true -> lstrip t = "") as L.
    { induction t as [|c r IH]; simpl; [reflexivity|].
      intros Ht. apply andb_prop in Ht as [Hc Hr]. rewrite Hc. now apply IH. }
    now rewrite (L s H).
Qed.

End PyStrFacts.

(* ------------------------------------------------------------------ *)
(** ** Facts about [textwrap.wrap] *)

Module TextWrapFacts.
Import PyStr PyStrFacts TextWrap.

Lemma blank_iff (c : string) : blank c = true <-> forall_chars isspace c = true.
Proof. unfold blank. rewrite String.eqb_eq. apply strip_blank_iff. Qed.

Lemma squeeze_blank (c : string) : blank c = true -> squeeze c = "".
Proof.
  rewrite blank_iff. unfold squeeze, nonspace.
  induction c as [|a r IH]; simpl; [reflexivity|].
  intros H. apply andb_prop in H as [Ha Hr]. rewrite Ha. simpl. now apply IH.
Qed.

Lemma blank_spaceless (c : string) : blank c = true -> spaceless c -> c = "".
Proof.
  rewrite blank_iff. unfold spaceless, nonspace.
  destruct c as [|a r]; simpl; [reflexivity|].
  intros H1 H2. apply andb_prop in H1 as [Ha _]. apply andb_prop in H2 as [Hb _].
  rewrite Ha in Hb. discriminate.
Qed.

Lemma squeeze_app (a b : string) : squeeze (a ++ b) = squeeze a ++ squeeze b.
Proof. apply filter_chars_app. Qed.

Lemma spaceless_app (a b : string) :
  spaceless (a ++ b) <-> spaceless a /\ spaceless b.
Proof. unfold spaceless. rewrite forall_chars_app. apply andb_true_iff. Qed.

Lemma spaceless_take (n : nat) (s : string) : spaceless s -> spaceless (take n s).
Proof. intros H. rewrite <- (take_drop n s) in H. now apply spaceless_app in H. Qed.

Lemma spaceless_drop (n : nat) (s : string) : spaceless s -> spaceless (drop n s).
Proof. intros H. rewrite <- (take_drop n s) in H. now apply spaceless_app in H. Qed.

Lemma squeeze_spaceless (s : string) : spaceless s -> squeeze s = s.
Proof. apply filter_chars_all. Qed.

Lemma spaceless_concat (l : list string) :
  Forall spaceless l -> spaceless (concat l).
Proof.
  induction 1 as [|x r Hx Hr IH]; simpl; [reflexivity|].
  apply spaceless_app. now split.
Qed.

(** *** The inner loop *)

Lemma weight_app (a b : list string) : weight (a ++ b) = weight a + weight b.
Proof. induction a as [|x r IH]; simpl; [reflexivity|]. rewrite IH. lia. Qed.

Lemma fill_spec (width : nat) (chunks : list string) :
  forall n line n' rest,
    fill width n chunks = (line, n', rest) ->
    chunks = (line ++ rest)%list
    /\ n' = n + String.length (concat line)
    /\ (n <= width -> n' <= width)
    /\ (line = [] ->
        match rest with
        | c :: _ => width < n + String.length c
        | [] => True
        end).
Proof.
  induction chunks as [|c r IH]; simpl; intros n line n' rest H.
  - inversion H; subst. simpl. repeat split; auto; lia.
  - destruct (Nat.leb_spec (n + String.length c) width) as [Hle|Hgt].
    + destruct (fill width (n + String.length c) r) as [[line0 n0] rest0] eqn:E.
      inversion H; subst. destruct (IH _ _ _ _ E) as (H1 & H2 & H3 & _).
      subst r. simpl. rewrite length_append. repeat split; auto; try lia.
      discriminate.
    + inversion H; subst. simpl. repeat split; auto; lia.
Qed.

(** *** Cutting a long word *)

Lemma rfind_hyphen_range (stop : nat) :
  forall i s k, rfind_hyphen i stop s = Some k -> i <= k < i + stop.
Proof.
  induction stop as [|stop IH]; intros i s k; simpl; [discriminate|].
  destruct s as [|c r]; [discriminate|].
  destruct (rfind_hyphen (S i) stop r) as [k'|] eqn:E.
  - intros H; inversion H; subst. apply IH in E. lia.
  - destruct (is_hyphen c); [|discriminate].
    intros H; inversion H; subst. lia.
Qed.

Lemma long_word_end_le (chunk : string) (cur_len width : nat) :
  1 <= width -> long_word_end chunk cur_len width <= width - cur_len.
Proof.
  intros Hw. unfold long_word_end.
  destruct (Nat.ltb_spec width 1); [lia|].
  destruct (width - cur_len <? String.length chunk)%nat; [|lia].
  destruct (rfind_hyphen 0 (width - cur_len) chunk) as [k|] eqn:E; [|lia].
  apply rfind_hyphen_range in E.
  destruct ((0 <? k)%nat && _); lia.
Qed.

Lemma long_word_end_pos (chunk : string) (width : nat) :
  1 <= width -> 1 <= long_word_end chunk 0 width.
Proof.
  intros Hw. unfold long_word_end.
  destruct (Nat.ltb_spec width 1); [lia|].
  rewrite Nat.sub_0_r.
  destruct (width <? String.length chunk)%nat; [|lia].
  destruct (rfind_hyphen 0 width chunk) as [k|]; [|lia].
  destruct ((0 <? k)%nat && _); lia.
Qed.

(** *** Dropping the trailing blank chunk *)

Lemma drop_trailing_blank_spec (l : list string) :
  drop_trailing_blank l = l
  \/ exists x, blank x = true /\ l = (drop_trailing_blank l ++ [x])%list.
Proof.
  unfold drop_trailing_blank.
  destruct (rev l) as [|x t] eqn:E; [now left|].
  destruct (blank x) eqn:B; [|now left].
  right. exists x. split; [exact B|].
  assert (l = (rev t ++ [x])%list) as ->.
  { rewrite <- (rev_involutive l), E. reflexivity. }
  now rewrite removelast_last.
Qed.

Lemma drop_trailing_blank_facts (l : list string) :
  String.length (concat (drop_trailing_blank l)) <= String.length (concat l)
  /\ squeeze (concat (drop_trailing_blank l)) = squeeze (concat l)
  /\ (Forall spaceless l -> concat (drop_trailing_blank l) = concat l).
Proof.
  destruct (drop_trailing_blank_spec l) as [-> | [x [B E]]].
  - repeat split; auto.
  - set (l0 := drop_trailing_blank l) in *. rewrite E.
    rewrite concat_app. simpl. rewrite append_nil_r.
    repeat split.
    + rewrite length_append. lia.
    + rewrite squeeze_app, (squeeze_blank x B). now rewrite append_nil_r.
    + intros F. apply Forall_app in F as [_ F]. apply Forall_inv in F.
      rewrite (blank_spaceless x B F). now rewrite append_nil_r.
Qed.

(** *** One round of the outer loop *)

Lemma wrap_step_spec (width : nat) (chunks lines chunks' lines' : list string) :
  1 <= width ->
  chunks <> [] ->
  wrap_step width chunks lines = (chunks', lines') ->
  weight chunks' < weight chunks
  /\ exists new,
      lines' = (lines ++ new)%list
      /\ Forall (fits width) new
      /\ squeeze (concat new ++ concat chunks') = squeeze (concat chunks)
      /\ (Forall spaceless chunks ->
          Forall spaceless chunks'
          /\ concat new ++ concat chunks' = concat chunks).
Proof.
  intros Hw Hne. unfold wrap_step.
  (* the leading blank chunk *)
  set (chunks1 := match chunks with
                  | first :: rest =>
                      if blank first && negb (is_nil lines) then rest else chunks
                  | [] => chunks
                  end).
  assert (weight chunks1 <= weight chunks
          /\ (chunks1 = chunks \/ weight chunks1 < weight chunks)
          /\ squeeze (concat chunks1) = squeeze (concat chunks)
          /\ (Forall spaceless chunks ->
              Forall spaceless chunks1 /\ concat chunks1 = concat chunks))
    as (W1 & W1' & Q1 & P1).
  { subst chunks1. destruct chunks as [|first rest]; [congruence|].
    destruct (blank first && negb (is_nil lines)) eqn:B.
    - apply andb_prop in B as [B _]. simpl.
      split; [lia|]. split; [right; lia|]. split.
      + now rewrite squeeze_app, (squeeze_blank first B).
      + intros F. inversion F; subst.
        now rewrite (blank_spaceless first B).
    - split; [lia|]. split; [now left|]. split; [reflexivity|]. now split. }
  clearbody chunks1.
  destruct (fill width 0 chunks1) as [[cur_line cur_len] chunks2] eqn:EF.
  destruct (fill_spec _ _ _ _ _ _ EF) as (F1 & F2 & F3 & F4).
  simpl in F2. specialize (F3 (Nat.le_0_l _)).
  (* the long word *)
  set (r := match chunks2 with
            | c :: _ =>
                if (width <? String.length c)%nat
                then _handle_long_word chunks2 cur_line cur_len width
                else (chunks2, cur_line)
            | [] => (chunks2, cur_line)
            end).
  assert (concat (snd r) ++ concat (fst r) = concat chunks1
          /\ String.length (concat (snd r)) <= width
          /\ weight (fst r) <= weight chunks1
          /\ (chunks1 <> [] -> weight (fst r) < weight chunks1)
          /\ (Forall spaceless chunks1 ->
              Forall spaceless (fst r) /\ Forall spaceless (snd r)))
    as (C2 & L2 & W2 & W2' & P2).
  { assert (concat cur_line ++ concat chunks2 = concat chunks1) as C0
        by (now rewrite F1, concat_app).
    assert (weight chunks2 <= weight chunks1) as W0
        by (rewrite F1, weight_app; lia).
    assert (chunks1 <> [] -> cur_line <> [] -> weight chunks2 < weight chunks1)
      as W0'.
    { intros _ Hl. rewrite F1, weight_app.
      destruct cur_line; [congruence|]. simpl. lia. }
    assert (Forall spaceless chunks1 ->
            Forall spaceless chunks2 /\ Forall spaceless cur_line) as P0.
    { intros F. rewrite F1 in F. apply Forall_app in F. tauto. }
    subst r. destruct chunks2 as [|c rest].
    - simpl. repeat split; auto; try lia; try (now apply P0).
      intros Hc. destruct cur_line; [|apply W0'; congruence].
      simpl in F1. congruence.
    - destruct (Nat.ltb_spec width (String.length c)) as [Hlong|Hshort].
      + simpl.
        pose proof (long_word_end_le c cur_len width Hw) as Le.
        set (e := long_word_end c cur_len width) in *.
        rewrite concat_app. simpl. rewrite append_nil_r.
        repeat split.
        * rewrite <- C0. simpl.
          rewrite append_assoc, <- (append_assoc (take e c)), take_drop.
          reflexivity.
        * rewrite length_append, length_take. lia.
        * simpl in W0. rewrite length_drop. lia.
        * intros Hc. simpl in W0. rewrite length_drop.
          destruct cur_line as [|x xs].
          -- simpl in F2. subst cur_len.
             pose proof (long_word_end_pos c width Hw). fold e in H. lia.
          -- assert (weight (c :: rest) < weight chunks1)
               by (apply W0'; congruence).
             simpl in H. lia.
        * destruct (P0 H) as [Pa Pb]. inversion Pa; subst.
          constructor; [now apply spaceless_drop | assumption].
        * destruct (P0 H) as [Pa Pb]. inversion Pa; subst.
          apply Forall_app. split; [assumption|].
          constructor; [now apply spaceless_take | constructor].
      + simpl. repeat split; auto; try lia; try (now apply P0).
        intros Hc. destruct cur_line as [|x xs]; [|apply W0'; congruence].
        specialize (F4 eq_refl). simpl in F4. lia. }
  clearbody r. destruct r as [chunks3 cur_line1]. simpl in *.
  intros H. inversion H; subst chunks' lines'. clear H.
  destruct (drop_trailing_blank_facts cur_line1) as (D1 & D2 & D3).
  set (cur_line2 := drop_trailing_blank cur_line1) in *.
  split.
  { destruct W1' as [-> | ?]; [|lia]. apply W2'. exact Hne. }
  exists (if is_nil cur_line2 then [] else [concat cur_line2]).
  assert (concat (if is_nil cur_line2 then [] else [concat cur_line2])
          = concat cur_line2) as CN.
  { destruct cur_line2; simpl; [reflexivity|]. now rewrite append_nil_r. }
  repeat split.
  - destruct (is_nil cur_line2); [now rewrite app_nil_r | reflexivity].
  - destruct (is_nil cur_line2); constructor; [|constructor].
    unfold fits. lia.
  - rewrite CN, squeeze_app, D2, <- squeeze_app, C2. exact Q1.
  - apply P2. now apply P1.
  - rewrite CN, D3; [|apply P2; now apply P1].
    rewrite C2. now apply P1.
Qed.

(** *** The outer loop *)

Lemma wrap_loop_total (width : nat) :
  1 <= width ->
  forall fuel chunks lines,
    weight chunks <= fuel ->
    exists res, wrap_loop fuel width chunks lines = Some res.
Proof.
  intros Hw. induction fuel as [|fuel IH]; intros chunks lines Hf.
  - destruct chunks; simpl in *; [now eexists | lia].
  - destruct chunks as [|c rest]; [now eexists|].
    cbn [wrap_loop].
    destruct (wrap_step width (c :: rest) lines) as [chunks' lines'] eqn:E.
    apply wrap_step_spec in E as [W _]; [|exact Hw|discriminate].
    apply IH. lia.
Qed.

Lemma wrap_loop_spec (width : nat) :
  1 <= width ->
  forall fuel chunks lines res,
    wrap_loop fuel width chunks lines = Some res ->
    exists new,
      res = (lines ++ new)%list
      /\ Forall (fits width) new
      /\ squeeze (concat new) = squeeze (concat chunks)
      /\ (Forall spaceless chunks -> concat new = concat chunks).
Proof.
  intros Hw. induction fuel as [|fuel IH]; intros chunks lines res H.
  - destruct chunks; [|discriminate]. inversion H; subst.
    exists []. rewrite app_nil_r. repeat split; auto.
  - destruct chunks as [|c rest].
    + inversion H; subst. exists []. rewrite app_nil_r. repeat split; auto.
    + cbn [wrap_loop] in H.
      destruct (wrap_step width (c :: rest) lines) as [chunks' lines'] eqn:E.
      apply wrap_step_spec in E as [_ (new1 & -> & B1 & Q1 & P1)];
        [|exact Hw|discriminate].
      apply IH in H as (new2 & -> & B2 & Q2 & P2).
      exists (new1 ++ new2)%list. split; [now rewrite app_assoc|].
      split; [now apply Forall_app|]. split.
      * rewrite concat_app, squeeze_app, Q2, <- squeeze_app. exact Q1.
      * intros F. destruct (P1 F) as [F' C']. rewrite concat_app, (P2 F').
        exact C'.
Qed.

Lemma _wrap_chunks_spec (width : nat) (chunks : list string) :
  1 <= width ->
  exists lines,
    _wrap_chunks width chunks = Ok lines
    /\ Forall (fits width) lines
    /\ squeeze (concat lines) = squeeze (concat chunks)
    /\ (Forall spaceless chunks -> concat lines = concat chunks).
Proof.
  intros Hw. unfold _wrap_chunks.
  destruct (Nat.eqb_spec width 0); [lia|].
  destruct (wrap_loop_total width Hw (weight chunks) chunks [] (le_n _))
    as [res E].
  rewrite E. apply wrap_loop_spec in E as (new & -> & H); [|exact Hw].
  exists new. split; [reflexivity | exact H].
Qed.

(** *** Splitting into chunks *)

Lemma split_from_concat (fuel : nat) :
  forall before s, concat (split_from fuel before s) = s.
Proof.
  induction fuel as [|fuel IH]; intros before [|c r]; try reflexivity.
  - simpl. now rewrite append_nil_r.
  - cbn [split_from concat]. rewrite IH. apply take_drop.
Qed.

Lemma chunk_len_pos (before : list ascii) (c : ascii) (r : string) :
  1 <= chunk_len before (String c r).
Proof.
  unfold chunk_len.
  destruct (is_whitespace c) eqn:W.
  - simpl. rewrite W. lia.
  - destruct (last_is is_word_punct before); [|lia].
    unfold em_dash. set (n := hyphen_run (String c r)).
    destruct (Nat.leb_spec 2 n); cbn [andb]; [|lia].
    destruct (starts_with is_word _); lia.
Qed.

(** Fuel beyond the length of the text changes nothing: the fallback
    of [split_from] is never reached from [_split]. *)
Lemma split_from_fuel (fuel1 : nat) :
  forall fuel2 before s,
    String.length s <= fuel1 -> String.length s <= fuel2 ->
    split_from fuel1 before s = split_from fuel2 before s.
Proof.
  induction fuel1 as [|fuel1 IH]; intros fuel2 before [|c r] H1 H2;
    try (destruct fuel2; reflexivity).
  - simpl in H1. lia.
  - destruct fuel2 as [|fuel2]; [simpl in H2; lia|].
    cbn [split_from]. f_equal.
    pose proof (chunk_len_pos before c r) as Hp.
    set (n := chunk_len before (String c r)) in *.
    cbn [String.length] in H1, H2.
    apply IH; rewrite length_drop; cbn [String.length]; lia.
Qed.

Lemma spaceless_parts (l : list string) :
  spaceless (concat l) -> Forall spaceless l.
Proof.
  induction l as [|x r IH]; simpl; intros H; constructor;
    apply spaceless_app in H; tauto.
Qed.

(** *** Whitespace normalisation *)

Lemma is_whitespace_isspace (c : ascii) :
  is_whitespace c = true -> isspace c = true.
Proof.
  destruct c as [[] [] [] [] [] [] [] []]; vm_compute; congruence.
Qed.

Lemma tab_isspace (c : ascii) : is_code 9 c = true -> isspace c = true.
Proof.
  destruct c as [[] [] [] [] [] [] [] []]; vm_compute; congruence.
Qed.

Lemma squeeze_spaces (n : nat) : squeeze (spaces n) = "".
Proof. induction n; simpl; auto. Qed.

Lemma squeeze_cons (c : ascii) (r : string) :
  squeeze (String c r) = if isspace c then squeeze r else String c (squeeze r).
Proof. unfold squeeze, nonspace. simpl. now destruct (isspace c). Qed.

Lemma squeeze_expandtabs (tabsize : nat) (s : string) :
  forall col, squeeze (expandtabs_from tabsize col s) = squeeze s.
Proof.
  induction s as [|c r IH]; intros col; [reflexivity|].
  cbn [expandtabs_from]. rewrite (squeeze_cons c r).
  destruct (is_code 9 c) eqn:T.
  - rewrite (tab_isspace c T).
    destruct (0 <? tabsize)%nat; [|apply IH].
    now rewrite squeeze_app, squeeze_spaces, IH.
  - now rewrite squeeze_cons, IH.
Qed.

Lemma squeeze_munge (s : string) : squeeze (_munge_whitespace s) = squeeze s.
Proof.
  unfold _munge_whitespace, expandtabs.
  rewrite <- (squeeze_expandtabs 8 s 0).
  induction (expandtabs_from 8 0 s) as [|c r IH]; [reflexivity|].
  cbn [map_chars]. rewrite !squeeze_cons, IH.
  destruct (is_whitespace c) eqn:W; [|reflexivity].
  now rewrite (is_whitespace_isspace c W).
Qed.

Lemma munge_spaceless_from (s : string) :
  forall col,
    spaceless s ->
    map_chars (fun c => if is_whitespace c then " "%char else c)
              (expandtabs_from 8 col s) = s.
Proof.
  induction s as [|c r IH]; intros col H; [reflexivity|].
  apply (spaceless_app (String c "") r) in H as [Hc Hr].
  unfold spaceless in Hc. cbn [forall_chars] in Hc.
  rewrite andb_true_r in Hc. apply negb_true_iff in Hc.
  cbn [expandtabs_from].
  destruct (is_code 9 c) eqn:T.
  { apply tab_isspace in T. congruence. }
  cbn [map_chars]. destruct (is_whitespace c) eqn:W.
  { apply is_whitespace_isspace in W. congruence. }
  f_equal. now apply IH.
Qed.

Lemma munge_spaceless (s : string) : spaceless s -> _munge_whitespace s = s.
Proof. apply munge_spaceless_from. Qed.

(** *** [wrap] *)

Lemma wrap_spec (text : string) (width : nat) :
  1 <= width ->
  exists lines,
    wrap text width = Ok lines
    /\ Forall (fits width) lines
    /\ squeeze (concat lines) = squeeze text
    /\ (spaceless text -> concat lines = text).
Proof.
  intros Hw. unfold wrap, _split_chunks, _split.
  destruct (_wrap_chunks_spec width
              (split_from (String.length (_munge_whitespace text)) []
                          (_munge_whitespace text)) Hw)
    as (lines & E & B & Q & P).
  rewrite split_from_concat in Q, P.
  exists lines. split; [exact E|]. split; [exact B|]. split.
  - now rewrite Q, squeeze_munge.
  - intros S. rewrite (munge_spaceless text S) in *.
    apply P. apply spaceless_parts. now rewrite split_from_concat.
Qed.

End TextWrapFacts.

(* ------------------------------------------------------------------ *)
(** ** Text chunking *)

Import PyStrFacts TextWrapFacts.

Lemma lstrip_head (s : string) :
  lstrip s = "" \/ exists c r, lstrip s = String c r /\ isspace c = false.
Proof.
  induction s as [|c r IH]; simpl; [now left|].
  destruct (isspace c) eqn:E; [exact IH|]. right. now exists c, r.
Qed.

Lemma rstrip_head (c : ascii) (r : string) :
  isspace c = false -> exists r', rstrip (String c r) = String c r'.
Proof.
  intros E. simpl. rewrite E. destruct (rstrip r); now eexists.
Qed.

Lemma strip_head (s : string) :
  strip s = "" \/ exists c r, strip s = String c r /\ isspace c = false.
Proof.
  unfold strip. destruct (lstrip_head s) as [-> | (c & r & -> & E)].
  - now left.
  - right. destruct (rstrip_head c r E) as [r' ->]. now exists c, r'.
Qed.

Lemma squeeze_strip_nonempty (s : string) :
  strip s <> "" -> squeeze (strip s) <> "".
Proof.
  intros H. destruct (strip_head s) as [E | (c & r & E & Hc)]; [congruence|].
  rewrite E, squeeze_cons, Hc. discriminate.
Qed.

(** *** Trimmed text *)

Lemma rstrip_cons (c : ascii) (r : string) :
  rstrip (String c r)
  = match rstrip r with
    | "" => if isspace c then "" else String c ""
    | r' => String c r'
    end.
Proof. reflexivity. Qed.

Lemma rstrip_idem (s : string) : rstrip (rstrip s) = rstrip s.
Proof.
  induction s as [|c r IH]; [reflexivity|]. rewrite rstrip_cons.
  destruct (rstrip r) as [|c' r'] eqn:E.
  - destruct (isspace c) eqn:Ec; [reflexivity|]. simpl. now rewrite Ec.
  - rewrite rstrip_cons, IH. reflexivity.
Qed.

Lemma lstrip_nonspace (c : ascii) (r : string) :
  isspace c = false -> lstrip (String c r) = String c r.
Proof. intros E. simpl. now rewrite E. Qed.

Lemma strip_idem (s : string) : strip (strip s) = strip s.
Proof.
  destruct (strip_head s) as [E | (c & r & E & Hc)].
  - now rewrite E.
  - unfold strip at 1. rewrite E, (lstrip_nonspace c r Hc), <- E.
    unfold strip. apply rstrip_idem.
Qed.

(** *** The chunks of a text *)

Lemma filled_length (c : string) : filled c <-> 1 <= String.length c.
Proof.
  unfold filled. destruct c; simpl; split; intros H; try lia; congruence.
Qed.

Lemma split_from_filled (fuel : nat) :
  forall before s, Forall filled (TextWrap.split_from fuel before s).
Proof.
  induction fuel as [|fuel IH]; intros before [|c r]; try constructor;
    try discriminate; try constructor.
  - apply filled_length. rewrite length_take.
    pose proof (chunk_len_pos before c r). cbn [String.length]. lia.
  - apply IH.
Qed.

(** *** The lines and the text *)




(** *** One round of the outer loop keeps the text *)




(** *** A text that fits on one line *)


Lemma rstrip_of_blank (x : string) :
  forall_chars isspace x = true -> rstrip x = "".
Proof.
  induction x as [|c r IH]; [reflexivity|]. cbn [forall_chars].
  intros H. apply andb_prop in H as [Hc Hr].
  rewrite rstrip_cons, (IH Hr), Hc. reflexivity.
Qed.

Lemma rstrip_app_blank (a x : string) :
  forall_chars isspace x = true -> rstrip (a ++ x) = rstrip a.
Proof.
  intros H. induction a as [|c r IH]; cbn [append].
  - now rewrite (rstrip_of_blank x H).
  - now rewrite !rstrip_cons, IH.
Qed.

Lemma length_rstrip (a : string) : String.length (rstrip a) <= String.length a.
Proof.
  destruct (rstrip_prefix a) as (q & E & _).
  rewrite E at 2. rewrite length_append. lia.
Qed.

(** A string that [rstrip] leaves alone ends with no whitespace. *)
Lemma rstrip_fixed_suffix (a x : string) :
  rstrip (a ++ x) = a ++ x -> forall_chars isspace x = true -> x = "".
Proof.
  intros E B. rewrite (rstrip_app_blank a x B) in E.
  pose proof (length_rstrip a) as L. rewrite E, length_append in L.
  destruct x; [reflexivity | cbn [String.length] in L; lia].
Qed.



Lemma map_chars_spaces (n : nat) :
  map_chars (fun c => if TextWrap.is_whitespace c then " "%char else c)
            (spaces n) = spaces n.
Proof. induction n as [|n IH]; [reflexivity|]. cbn [spaces map_chars]. now rewrite IH. Qed.










(** *** The segments of a text property *)


(** The example of the specification, for an abstract of 4000 letters. *)
Example build_rich_text_4000 :
  build_rich_text (JStr (replicate 4000 "a"))
  = Ok (map text_segment
          [replicate 1800 "a"; replicate 1800 "a"; replicate 400 "a"]).
Proof. vm_compute. reflexivity. Qed.



(* ------------------------------------------------------------------ *)
(** ** The update payload *)

Ltac bind_inv H :=
  match type of H with
  | bind ?m _ = Ok _ =>
      let E := fresh "E" in
      destruct m eqn:E; cbn [bind] in H; [|discriminate H]
  end.

Lemma keys_dict_set (d : list (string * json)) (n : string) (v : json) :
  forall k, In k (keys (dict_set d n v)) <-> k = n \/ In k (keys d).
Proof.
  unfold keys. induction d as [|[k' v'] rest IH]; intros k; simpl.
  - intuition congruence.
  - destruct (String.eqb_spec k' n) as [-> | NE]; simpl.
    + intuition congruence.
    + rewrite IH. intuition congruence.
Qed.

Lemma configured_some (name : option string) (n : string) :
  configured name = Some n -> name = Some n /\ n <> "".
Proof.
  destruct name as [m|]; simpl; [|discriminate].
  destruct (String.eqb_spec m ""); [discriminate|].
  intros H; inversion H; subst. now split.
Qed.

Lemma is_str_true (s : string) (v : json) : is_str s v = true <-> v = JStr s.
Proof.
  destruct v; simpl; try (split; [discriminate | intros H; discriminate H]).
  rewrite String.eqb_eq. split; intros H; [now subst | now inversion H].
Qed.

Lemma truthy_not_null (v : json) : truthy v = true -> v <> JNull.
Proof. intros H ->. discriminate H. Qed.

(** [property_has_value] decides [holds_value]. *)
Lemma property_has_value_true (prop : json) :
  property_has_value prop = Ok true <-> holds_value prop.
Proof.
  unfold property_has_value, holds_value. split.
  - intros H. bind_inv H. bind_inv H.
    assert (a0 <> JNull) as NN by (intros ->; discriminate H).
    assert ((if is_str "title" a || is_str "rich_text" a
                || is_str "multi_select" a
             then Ok (truthy a0)
             else if is_str "date" a
                  then start <- get a0 "start" ;; Ok (truthy start)
                  else Ok false) = Ok true) as H'
        by (destruct a0; congruence).
    clear H.
    destruct (is_str "title" a || is_str "rich_text" a
              || is_str "multi_select" a) eqn:K.
    + assert (exists kind, a = JStr kind
                           /\ (kind = "title" \/ kind = "rich_text"
                               \/ kind = "multi_select")) as (kind & -> & Hk).
      { apply orb_true_iff in K as [K|K]; [apply orb_true_iff in K as [K|K]|];
          apply is_str_true in K; subst a; eexists; split; eauto. }
      exists kind, a0. split; [reflexivity|].
      split; [destruct prop; try discriminate; exact E0|].
      left. split; [exact Hk | congruence].
    + destruct (is_str "date" a) eqn:D; [|discriminate H'].
      apply is_str_true in D. subst a. bind_inv H'.
      exists "date", a0. split; [reflexivity|].
      split; [destruct prop; try discriminate; exact E0|].
      right. split; [reflexivity|]. exists a. split; [exact E1 | congruence].
  - intros (kind & value & Gt & Gv & Hcase). rewrite Gt. cbn [bind].
    assert (get_value prop (JStr kind) = Ok value) as ->.
    { destruct prop; try discriminate. exact Gv. }
    cbn [bind].
    destruct Hcase as [[Hk T] | [-> (start & Gs & T)]].
    + pose proof (truthy_not_null value T) as NN.
      assert (is_str "title" (JStr kind) || is_str "rich_text" (JStr kind)
              || is_str "multi_select" (JStr kind) = true) as ->.
      { destruct Hk as [-> | [-> | ->]]; reflexivity. }
      rewrite T. destruct value; congruence.
    + assert (value <> JNull) as NN by (intros ->; discriminate Gs).
      cbn. rewrite Gs. cbn [bind]. rewrite T. destruct value; congruence.
Qed.

Lemma maybe_set_spec (properties : json) (acc : payload)
      (name : option string) (vb : unit -> result json) (acc' : payload) :
  maybe_set properties acc name vb = Ok acc' ->
  acc' = acc
  \/ exists n v,
      configured name = Some n /\ fillable properties n
      /\ vb tt = Ok v /\ v <> JNull /\ acc' = dict_set acc n v.
Proof.
  unfold maybe_set, fillable.
  destruct (configured name) as [n|]; [|intros H; inversion H; now left].
  destruct (get properties n) as [prop|] eqn:G; cbn [bind]; [|discriminate].
  destruct (truthy prop) eqn:T; cbn [negb];
    [|intros H; inversion H; now left].
  destruct (property_has_value prop) as [[|]|] eqn:Hv; cbn [bind];
    [intros H; inversion H; now left| |discriminate].
  destruct (vb tt) as [v|] eqn:B; cbn [bind]; [|discriminate].
  intros H.
  assert (v = JNull \/ v <> JNull) as [-> | NN]
      by (destruct v; (now left) || (right; discriminate)).
  - inversion H; now left.
  - right. exists n, v. repeat split; eauto.
    destruct v; try congruence; now inversion H.
Qed.


Lemma maybe_set_keys (properties : json) (acc : payload)
      (name : option string) (vb : unit -> result json) (acc' : payload) :
  maybe_set properties acc name vb = Ok acc' ->
  (forall k, In k (keys acc) -> fillable properties k) ->
  forall k, In k (keys acc') -> fillable properties k.
Proof.
  intros H Inv k Hk.
  apply maybe_set_spec in H as [-> | (n & v & _ & F & _ & _ & ->)].
  - now apply Inv.
  - apply keys_dict_set in Hk as [-> | Hk]; [exact F | now apply Inv].
Qed.

(** The five calls of [maybe_set], one after the other. *)
Lemma build_update_payload_steps (props : PropertyConfig.t)
      (page metadata : json) (update : payload) :
  _build_update_payload props page metadata = Ok update ->
  exists properties p1 p2 p3 p4,
    properties_of page = Ok properties
    /\ maybe_set properties [] (PropertyConfig.authors props)
         (builder properties metadata (PropertyConfig.authors props) "authors")
       = Ok p1
    /\ maybe_set properties p1 (PropertyConfig.published props)
         (builder properties metadata (PropertyConfig.published props)
                  "publication_date")
       = Ok p2
    /\ maybe_set properties p2 (PropertyConfig.venue props)
         (builder properties metadata (PropertyConfig.venue props) "venue")
       = Ok p3
    /\ maybe_set properties p3 (PropertyConfig.citation props)
         (builder properties metadata (PropertyConfig.citation props) "citation")
       = Ok p4
    /\ maybe_set properties p4 (PropertyConfig.abstract props)
         (builder properties metadata (PropertyConfig.abstract props) "abstract")
       = Ok update.
Proof.
  unfold _build_update_payload. intros H.
  bind_inv H. bind_inv H. bind_inv H. bind_inv H. bind_inv H.
  repeat eexists; eauto.
Qed.

Lemma build_update_payload_keys (props : PropertyConfig.t)
      (page metadata properties : json) (update : payload) :
  _build_update_payload props page metadata = Ok update ->
  properties_of page = Ok properties ->
  forall k, In k (keys update) -> fillable properties k.
Proof.
  intros H Hp.
  apply build_update_payload_steps in H
    as (properties' & p1 & p2 & p3 & p4 & Hp' & S1 & S2 & S3 & S4 & S5).
  assert (properties' = properties) as -> by congruence.
  eapply maybe_set_keys; [exact S5|].
  eapply maybe_set_keys; [exact S4|].
  eapply maybe_set_keys; [exact S3|].
  eapply maybe_set_keys; [exact S2|].
  eapply maybe_set_keys; [exact S1|].
  intros k [].
Qed.

(** C1: a property of the record that already holds a value is not
    named in the update payload built for the record. *)
Theorem existing_value_never_overwritten (props : PropertyConfig.t)
        (page metadata properties prop : json) (update : payload)
        (name : string) :
  _build_update_payload props page metadata = Ok update ->
  properties_of page = Ok properties ->
  get properties name = Ok prop ->
  holds_value prop ->
  ~ In name (keys update).
Proof.
  intros H Hp G V Hin. apply property_has_value_true in V.
  destruct (build_update_payload_keys _ _ _ _ _ H Hp name Hin)
    as (prop' & G' & _ & V').
  congruence.
Qed.

(** The same for the payload the loop of [run] arrives at. *)
Lemma reconcile_never_overwrites (props : PropertyConfig.t)
      (lookup : string -> result json)
      (page properties prop : json) (update : payload) (name : string) :
  snd (reconcile props lookup page) = Ok update ->
  properties_of page = Ok properties ->
  get properties name = Ok prop ->
  holds_value prop ->
  ~ In name (keys update).
Proof.
  unfold reconcile. intros H Hp G V Hin. apply property_has_value_true in V.
  assert (update = []
          \/ exists metadata,
              _build_update_payload props page metadata = Ok update)
    as [-> | [metadata Hb]].
  { destruct (_extract_title props page) as [title|]; [|discriminate H].
    destruct (title =? ""); [left; simpl in H; congruence|].
    destruct (_missing_fields props page) as [missing|]; [|discriminate H].
    destruct (TextWrap.is_nil missing); [left; simpl in H; congruence|].
    destruct (lookup title) as [metadata|]; [|discriminate H].
    destruct (truthy metadata); simpl in H;
      [right; now exists metadata | left; congruence]. }
  - destruct Hin.
  - destruct (build_update_payload_keys _ _ _ _ _ Hb Hp name Hin)
      as (prop' & G' & _ & V').
    congruence.
Qed.

Lemma existing_value_never_overwritten_witness :
  ~ In "Author" ["Year"; "Venue"; "Abstract"].
Proof.
  apply (existing_value_never_overwritten default_props sample_page
           sample_metadata
           (value_or JNull (properties_of sample_page))
           (value_or JNull
              (get (value_or JNull (properties_of sample_page)) "Author"))
           (value_or []
              (_build_update_payload default_props sample_page sample_metadata))
           "Author");
    try reflexivity.
  apply property_has_value_true. reflexivity.
Defined.

(* ------------------------------------------------------------------ *)
(** ** What the payload holds *)

Lemma configured_iff (attr : option string) (k : string) :
  configured attr = Some k <-> attr = Some k /\ k <> "".
Proof.
  split; [apply configured_some|].
  intros [-> Hk]. simpl. destruct (String.eqb_spec k ""); congruence.
Qed.

Lemma in_dict_set (d : list (string * json)) (n : string) (w : json) :
  forall k v, In (k, v) (dict_set d n w) -> (k = n /\ v = w) \/ In (k, v) d.
Proof.
  induction d as [|[k' v'] rest IH]; intros k v; simpl.
  - intros [H | []]. inversion H. now left.
  - destruct (String.eqb_spec k' n) as [-> | NE]; simpl.
    + intros [H | H]; [inversion H; now left | now right; right].
    + intros [H | H]; [now right; left|].
      destruct (IH k v H) as [E | Hin]; [now left | now right; right].
Qed.

Lemma maybe_set_entries (props : PropertyConfig.t)
      (properties metadata : json) (acc acc' : payload)
      (name : option string) (field : string) :
  maybe_set properties acc name (builder properties metadata name field)
  = Ok acc' ->
  In name (tracked props) ->
  (forall k v, In (k, v) acc -> built_for props properties metadata k v) ->
  forall k v, In (k, v) acc' -> built_for props properties metadata k v.
Proof.
  intros H Ht Inv k v Hin.
  apply maybe_set_spec in H as [-> | (n & w & C & F & B & NN & ->)];
    [now apply Inv|].
  apply in_dict_set in Hin as [[-> ->] | Hin]; [|now apply Inv].
  apply configured_iff in C as [-> Hn].
  unfold builder, get_opt in B. bind_inv B. bind_inv B.
  repeat split; auto. exists a, field, a0. now repeat split.
Qed.

Lemma build_update_payload_entries (props : PropertyConfig.t)
      (page metadata properties : json) (update : payload) :
  _build_update_payload props page metadata = Ok update ->
  properties_of page = Ok properties ->
  forall k v, In (k, v) update -> built_for props properties metadata k v.
Proof.
  intros H Hp.
  apply build_update_payload_steps in H
    as (properties' & p1 & p2 & p3 & p4 & Hp' & S1 & S2 & S3 & S4 & S5).
  assert (properties' = properties) as -> by congruence.
  eapply maybe_set_entries; [exact S5 | simpl; tauto |].
  eapply maybe_set_entries; [exact S4 | simpl; tauto |].
  eapply maybe_set_entries; [exact S3 | simpl; tauto |].
  eapply maybe_set_entries; [exact S2 | simpl; tauto |].
  eapply maybe_set_entries; [exact S1 | simpl; tauto |].
  intros k v [].
Qed.

Lemma in_keys (d : list (string * json)) (k : string) :
  In k (keys d) <-> exists v, In (k, v) d.
Proof.
  unfold keys. rewrite in_map_iff. split.
  - intros ([k' v] & <- & Hin). now exists v.
  - intros [v Hin]. now exists (k, v).
Qed.

Lemma is_str_false_ne (s : string) (v : json) :
  is_str s v = false -> v <> JStr s.
Proof. intros H E. apply is_str_true in E. congruence. Qed.

Lemma build_property_value_shape (prop value v : json) :
  build_property_value prop value = Ok v ->
  v <> JNull ->
  exists kind content,
    get prop "type" = Ok (JStr kind)
    /\ supported (JStr kind) = true
    /\ v = JDict [(kind, content)]
    /\ (kind = "date" ->
        content = JDict [("start", value)]
        /\ exists s, value = JStr s /\ s <> "")
    /\ (kind <> "date" -> exists items, content = JList items).
Proof.
  unfold build_property_value. intros H NN.
  destruct (match value with JNull => true | _ => is_str "" value end) eqn:V;
    [inversion H; congruence|].
  destruct (truthy prop); cbn [negb] in H; [|inversion H; congruence].
  bind_inv H.
  destruct (is_str "rich_text" a) eqn:K1.
  { apply is_str_true in K1. subst a. bind_inv H. inversion H; subst v.
    exists "rich_text", (JList a). repeat split; try discriminate.
    intros _. now eexists. }
  destruct (is_str "title" a) eqn:K2.
  { apply is_str_true in K2. subst a. bind_inv H. inversion H; subst v.
    exists "title", (JList a). repeat split; try discriminate.
    intros _. now eexists. }
  destruct (is_str "multi_select" a) eqn:K3.
  { apply is_str_true in K3. subst a. bind_inv H. inversion H; subst v.
    exists "multi_select", (JList (map tag (firstn 100 a))).
    repeat split; try discriminate. intros _. now eexists. }
  destruct (is_str "date" a) eqn:K4; [|inversion H; congruence].
  apply is_str_true in K4. subst a.
  destruct value; try (inversion H; congruence).
  inversion H; subst v.
  exists "date", (JDict [("start", JStr s)]). repeat split; try congruence.
  exists s. split; [reflexivity|]. intros ->. discriminate V.
Qed.

Lemma assoc_dict_set_same (d : list (string * json)) (k : string) (v : json) :
  assoc k (dict_set d k v) = Some v.
Proof.
  induction d as [|[k' v'] rest IH]; cbn [dict_set assoc].
  - now rewrite String.eqb_refl.
  - destruct (String.eqb_spec k' k) as [-> | NE]; cbn [assoc].
    + now rewrite String.eqb_refl.
    + destruct (String.eqb_spec k' k); [congruence | exact IH].
Qed.

Lemma assoc_dict_set_other (d : list (string * json)) (k k' : string)
      (v : json) :
  k' <> k -> assoc k' (dict_set d k v) = assoc k' d.
Proof.
  intros NE. induction d as [|[k0 v0] rest IH]; cbn [dict_set assoc].
  - destruct (String.eqb_spec k k'); [congruence | reflexivity].
  - destruct (String.eqb_spec k0 k) as [-> | NE0]; cbn [assoc].
    + destruct (String.eqb_spec k k'); [congruence | reflexivity].
    + destruct (String.eqb_spec k0 k'); [reflexivity | exact IH].
Qed.

Lemma assoc_in (d : list (string * json)) (k : string) (v : json) :
  assoc k d = Some v -> In (k, v) d.
Proof.
  induction d as [|[k' v'] rest IH]; cbn [assoc]; [discriminate|].
  destruct (String.eqb_spec k' k) as [-> | NE].
  - intros H; inversion H. now left.
  - intros H. right. now apply IH.
Qed.

Lemma assoc_in_keys (d : list (string * json)) (k : string) (v : json) :
  assoc k d = Some v -> In k (keys d).
Proof.
  intros H. apply assoc_in in H. unfold keys.
  apply in_map_iff. now exists (k, v).
Qed.

(** What a call of [maybe_set] for another name leaves under [name]. *)
Lemma maybe_set_other (properties : json) (acc acc' : payload)
      (attr : option string) (vb : unit -> result json) (name : string) :
  maybe_set properties acc attr vb = Ok acc' ->
  attr <> Some name ->
  assoc name acc' = assoc name acc.
Proof.
  intros H NE.
  apply maybe_set_spec in H as [-> | (n & v & C & _ & _ & _ & ->)];
    [reflexivity|].
  apply configured_some in C as [-> _].
  apply assoc_dict_set_other. congruence.
Qed.

(* ------------------------------------------------------------------ *)
(** ** Records with nothing to fill *)

Lemma get_ok_dict (d : json) (key : string) (v : json) :
  get d key = Ok v -> exists l, d = JDict l.
Proof. destruct d; try discriminate. now eexists. Qed.

Lemma get_dict_total (l : list (string * json)) (key : string) :
  exists v, get (JDict l) key = Ok v.
Proof. unfold get, get_default. now eexists. Qed.

Lemma missing_loop_populated (properties : json) (attrs : list (option string)) :
  (exists l, properties = JDict l) ->
  (forall name prop,
      In (Some name) attrs -> name <> "" ->
      get properties name = Ok prop -> truthy prop = true ->
      property_has_value prop = Ok true) ->
  forall missing, missing_loop properties attrs missing = Ok missing.
Proof.
  intros [l ->]. induction attrs as [|attr rest IH]; intros Hall missing.
  - reflexivity.
  - cbn [missing_loop].
    assert (forall m, missing_loop (JDict l) rest m = Ok m) as IH'.
    { apply IH. intros name prop Hin. apply Hall. now right. }
    destruct (configured attr) as [n|] eqn:C; [|apply IH'].
    apply configured_some in C as [-> Hn].
    destruct (get_dict_total l n) as [prop G]. rewrite G. cbn [bind].
    destruct (truthy prop) eqn:T; cbn [negb]; [|apply IH'].
    rewrite (Hall n prop (or_introl eq_refl) Hn G T). cbn [bind].
    apply IH'.
Qed.

Lemma extract_title_properties (props : PropertyConfig.t) (page : json)
      (title : string) :
  _extract_title props page = Ok title ->
  exists l, properties_of page = Ok (JDict l).
Proof.
  unfold _extract_title. intros H. bind_inv H. bind_inv H.
  apply get_ok_dict in E0 as [l ->]. now exists l.
Qed.

Lemma reconcile_populated (props : PropertyConfig.t)
      (page : json) (lookup : string -> result json) :
  fully_populated props page ->
  fst (reconcile props lookup page) = []
  /\ (forall title,
         _extract_title props page = Ok title ->
         reconcile props lookup page = ([], Ok [])).
Proof.
  intros Hp.
  assert (forall title,
             _extract_title props page = Ok title ->
             reconcile props lookup page = ([], Ok [])) as Main.
  { intros title Ht. unfold reconcile. rewrite Ht.
    destruct (title =? ""); [reflexivity|].
    destruct (extract_title_properties _ _ _ Ht) as [l Hl].
    unfold _missing_fields. rewrite Hl. cbn [bind].
    rewrite missing_loop_populated; [reflexivity | now exists l |].
    intros name prop Hin Hn G T. apply property_has_value_true.
    now apply (Hp (JDict l) name prop). }
  split; [|exact Main].
  destruct (_extract_title props page) as [title|e] eqn:Ht.
  - now rewrite (Main title eq_refl).
  - unfold reconcile. now rewrite Ht.
Qed.

(** C3: for a record whose tracked properties, where present, all hold a
    value, the reconciler looks nothing up, whatever the lookup function,
    and the payload is empty. *)
Theorem populated_record_needs_no_lookup (props : PropertyConfig.t)
        (page : json) (lookup : string -> result json) :
  fully_populated props page ->
  fst (reconcile props lookup page) = []
  /\ (forall title,
         _extract_title props page = Ok title ->
         reconcile props lookup page = ([], Ok [])).
Proof. apply reconcile_populated. Qed.

(** At the level of [run]: pages with nothing to fill cause no outbound
    call at all, and none is counted as updated. *)
Lemma run_populated_pages (props : PropertyConfig.t)
      (lookup : string -> result json)
      (patch : json -> payload -> result unit) (dry_run : bool)
      (pages : list json) :
  Forall (fun page => fully_populated props page
                      /\ exists title, _extract_title props page = Ok title)
         pages ->
  run props lookup patch dry_run pages = ([], Ok 0%Z).
Proof.
  unfold run. induction 1 as [|page rest [Hp [title Ht]] _ IH]; [reflexivity|].
  cbn [run_loop].
  destruct (reconcile_populated props page lookup Hp) as [_ Main].
  rewrite (Main title Ht). exact IH.
Qed.

Lemma filled_page_populated : fully_populated default_props filled_page.
Proof.
  intros properties name prop Hp Hin Hn G T.
  inversion Hp; subst properties. clear Hp.
  simpl in Hin.
  destruct Hin as [E|[E|[E|[E|[E|[]]]]]]; inversion E; subst name;
    vm_compute in G; inversion G; subst prop;
    try (apply property_has_value_true; reflexivity); discriminate T.
Qed.

Lemma populated_record_needs_no_lookup_witness :
  reconcile default_props (fun _ => Ok sample_metadata) filled_page
  = ([], Ok []).
Proof.
  exact (proj2 (populated_record_needs_no_lookup default_props filled_page
                  (fun _ => Ok sample_metadata) filled_page_populated)
               "Foo Bar" eq_refl).
Defined.

(* ------------------------------------------------------------------ *)
(** ** Running the reconciler again *)









(** *** The record after the sink has stored an update *)









(** *** The second run *)










(* ------------------------------------------------------------------ *)
(** ** Typed values *)

Lemma get_found_truthy (prop : json) (key : string) (v : json) :
  get prop key = Ok v -> v <> JNull -> truthy prop = true.
Proof.
  destruct prop; try discriminate. unfold get, get_default.
  destruct d as [|kv rest]; [|reflexivity].
  simpl. intros H; inversion H; congruence.
Qed.

(** C5, as amended: the typed-value constructor returns no value when
    the raw value is null or the empty string, and when the kind of the
    property is not one of rich text, title, multi-select and date. *)
Theorem absent_for_null_or_unsupported (prop value kind : json) :
  value = JNull \/ value = JStr ""
  \/ (get prop "type" = Ok kind /\ supported kind = false) ->
  build_property_value prop value = Ok JNull.
Proof.
  unfold build_property_value.
  intros [-> | [-> | [G S]]]; try reflexivity.
  destruct (match value with JNull => true | _ => is_str "" value end);
    [reflexivity|].
  destruct (truthy prop); cbn [negb]; [|reflexivity].
  rewrite G. cbn [bind]. unfold supported in S.
  apply orb_false_iff in S as [S Sd]. apply orb_false_iff in S as [S Sm].
  apply orb_false_iff in S as [Sr St].
  now rewrite Sr, St, Sm, Sd.
Qed.

Lemma absent_for_null_or_unsupported_witness :
  build_property_value (JDict [("type", JStr "number"); ("number", JNull)])
                       (JStr "ICML")
  = Ok JNull.
Proof.
  apply (absent_for_null_or_unsupported _ _ (JStr "number")).
  right. right. split; reflexivity.
Defined.

(** C5, as stated, fails: an empty list is an empty raw value, and the
    constructor returns a value for it. *)
Lemma empty_list_is_not_absent :
  build_property_value (JDict [("type", JStr "multi_select")]) (JList [])
  = Ok (JDict [("multi_select", JList [])])
  /\ build_property_value (JDict [("type", JStr "multi_select")]) (JList [])
     <> Ok JNull.
Proof. split; [reflexivity | discriminate]. Qed.

Lemma blank_text_built (kind : string) (prop value : json) :
  kind = "rich_text" \/ kind = "title" ->
  get prop "type" = Ok (JStr kind) ->
  blank_text value ->
  build_property_value prop value = Ok (JDict [(kind, JList [])]).
Proof.
  intros K G B.
  assert (truthy prop = true) as T
      by (apply (get_found_truthy prop "type" (JStr kind) G); discriminate).
  unfold build_property_value.
  destruct B as [-> | (s & -> & Hs & Hb)]; cbn [is_str].
  - rewrite T, G. cbn [negb bind]. destruct K as [-> | ->]; reflexivity.
  - destruct (String.eqb_spec s ""); [congruence|].
    rewrite T, G. cbn [negb bind].
    unfold build_rich_text. rewrite Hb. cbn [String.eqb bind].
    destruct K as [-> | ->]; reflexivity.
Qed.

Lemma blank_text_set (kind : string) (prop properties metadata : json)
      (name field : string) (value : json) (acc : payload) :
  kind = "rich_text" \/ kind = "title" ->
  get prop "type" = Ok (JStr kind) ->
  name <> "" ->
  get properties name = Ok prop ->
  property_has_value prop = Ok false ->
  get metadata field = Ok value ->
  blank_text value ->
  maybe_set properties acc (Some name)
            (builder properties metadata (Some name) field)
  = Ok (dict_set acc name (JDict [(kind, JList [])])).
Proof.
  intros K G Hn Gp Hv Gm B.
  assert (truthy prop = true) as T
      by (apply (get_found_truthy prop "type" (JStr kind) G); discriminate).
  unfold maybe_set, configured.
  destruct (String.eqb_spec name ""); [congruence|].
  rewrite Gp. cbn [bind]. rewrite T, Hv. cbn [negb bind].
  unfold builder, get_opt. rewrite Gp, Gm. cbn [bind].
  now rewrite (blank_text_built kind prop value K G B).
Qed.

(** C9: for a rich-text or title property, a non-empty string of
    whitespace only, and an empty list, are given a value with no
    segment, not the absent value; [maybe_set] stores that value in the
    payload under the name of the property, and the payload of
    [_build_update_payload] holds it under that name when every role
    configured for the name has such a value in the metadata. *)
Theorem blank_text_is_written (kind : string) (prop : json) :
  kind = "rich_text" \/ kind = "title" ->
  get prop "type" = Ok (JStr kind) ->
  let empty_value := JDict [(kind, JList [])] in
  (forall s, s <> "" -> strip s = "" ->
             build_property_value prop (JStr s) = Ok empty_value)
  /\ build_property_value prop (JList []) = Ok empty_value
  /\ (forall properties metadata name field value acc,
         name <> "" ->
         get properties name = Ok prop ->
         property_has_value prop = Ok false ->
         get metadata field = Ok value ->
         blank_text value ->
         exists acc',
           maybe_set properties acc (Some name)
                     (builder properties metadata (Some name) field)
           = Ok acc'
           /\ acc' = dict_set acc name empty_value
           /\ assoc name acc' = Some empty_value
           /\ In (name, empty_value) acc')
  /\ (forall props page properties metadata update name,
         properties_of page = Ok properties ->
         In (Some name) (tracked props) ->
         name <> "" ->
         get properties name = Ok prop ->
         property_has_value prop = Ok false ->
         (forall field,
             In (Some name, field) (roles props) ->
             exists value, get metadata field = Ok value /\ blank_text value) ->
         _build_update_payload props page metadata = Ok update ->
         assoc name update = Some empty_value
         /\ In (name, empty_value) update).
Proof.
  intros K G empty_value.
  split; [|split; [|split]].
  - intros s Hs Hb. apply (blank_text_built kind prop _ K G).
    right. now exists s.
  - apply (blank_text_built kind prop _ K G). now left.
  - intros properties metadata name field value acc Hn Gp Hv Gm B.
    exists (dict_set acc name empty_value).
    split; [now apply (blank_text_set kind prop _ _ _ _ value)|].
    split; [reflexivity|].
    split; [apply assoc_dict_set_same|].
    apply assoc_in, assoc_dict_set_same.
  - intros props page properties metadata update name Hp Ht Hn Gp Hv Hr H.
    apply build_update_payload_steps in H
      as (properties' & p1 & p2 & p3 & p4 & Hp' & S1 & S2 & S3 & S4 & S5).
    assert (properties' = properties) as -> by congruence.
    assert (forall acc acc' attr field,
               In (attr, field) (roles props) ->
               maybe_set properties acc attr
                         (builder properties metadata attr field) = Ok acc' ->
               attr = Some name \/ assoc name acc = Some empty_value ->
               assoc name acc' = Some empty_value) as Step.
    { intros acc acc' attr field Hin S D.
      assert (attr = Some name \/ attr <> Some name) as [-> | NE].
      { destruct attr as [n|]; [|right; discriminate].
        destruct (string_dec n name) as [-> | NE]; [now left|].
        right. congruence. }
      - destruct (Hr field Hin) as (value & Gm & B).
        rewrite (blank_text_set kind prop _ _ _ _ value acc K G Hn Gp Hv Gm B)
          in S.
        inversion S. apply assoc_dict_set_same.
      - rewrite (maybe_set_other _ _ _ _ _ name S NE).
        destruct D as [D | D]; [congruence | exact D]. }
    assert (assoc name update = Some empty_value) as A.
    { unfold roles in Step. cbn [tracked In] in Ht.
      eapply Step; [| exact S5 |]; [simpl; tauto|].
      destruct Ht as [Ht | Ht]; [|destruct Ht as [Ht | Ht];
        [|destruct Ht as [Ht | Ht]; [|destruct Ht as [Ht | Ht];
          [|destruct Ht as [Ht | []]; now left]]]];
        right.
      - eapply Step; [| exact S4 |]; [simpl; tauto|]. right.
        eapply Step; [| exact S3 |]; [simpl; tauto|]. right.
        eapply Step; [| exact S2 |]; [simpl; tauto|]. right.
        eapply Step; [| exact S1 |]; [simpl; tauto|]. now left.
      - eapply Step; [| exact S4 |]; [simpl; tauto|]. right.
        eapply Step; [| exact S3 |]; [simpl; tauto|]. right.
        eapply Step; [| exact S2 |]; [simpl; tauto|]. now left.
      - eapply Step; [| exact S4 |]; [simpl; tauto|]. right.
        eapply Step; [| exact S3 |]; [simpl; tauto|]. now left.
      - eapply Step; [| exact S4 |]; [simpl; tauto|]. now left. }
    split; [exact A | now apply assoc_in].
Qed.

Lemma blank_text_is_written_witness :
  let update :=
    value_or [] (_build_update_payload default_props sample_page
                                       blank_venue_metadata) in
  assoc "Venue" update = Some (JDict [("rich_text", JList [])])
  /\ In ("Venue", JDict [("rich_text", JList [])]) update.
Proof.
  refine (proj2 (proj2 (proj2
            (blank_text_is_written "rich_text"
               (JDict [("type", JStr "rich_text"); ("rich_text", JList [])])
               (or_introl eq_refl) eq_refl)))
            default_props sample_page
            (value_or JNull (properties_of sample_page))
            blank_venue_metadata _ "Venue"
            eq_refl _ _ eq_refl eq_refl _ eq_refl).
  - simpl. tauto.
  - discriminate.
  - intros field [H | [H | [H | [H | [H | []]]]]]; try discriminate H.
    exists (JStr "  "). injection H as <-.
    split; [reflexivity|]. right. exists "  ".
    split; [reflexivity|]. split; [discriminate | reflexivity].
Defined.

(* ------------------------------------------------------------------ *)
(** ** Citations *)

Lemma strip_trimmed (s : string) : trimmed_of s (strip s).
Proof.
  destruct (lstrip_suffix s) as (lead & El & Bl).
  destruct (rstrip_prefix (lstrip s)) as (trail & Et & Bt).
  exists lead, trail. fold (strip s) in Et.
  split; [now rewrite <- Et|]. split; [exact Bl|]. split; [exact Bt|]. split.
  - intros c r E. destruct (strip_head s) as [E0 | (c' & r' & E' & Hc)];
      congruence.
  - intros a c E. destruct (isspace c) eqn:S; [exfalso | reflexivity].
    assert (String c "" = "") as F; [|discriminate F].
    apply (rstrip_fixed_suffix a).
    + rewrite <- E. unfold strip. apply rstrip_idem.
    + cbn [forall_chars]. now rewrite S.
Qed.

(** C6: [format_citation] gives none for an absent or empty title;
    otherwise the author clause, the year clause, a full stop and a
    space, the title, a full stop, and the venue clause, with the
    whitespace at both ends of that text cut off. *)
Theorem format_citation_form (authors : list string) (year : option Z)
        (venue : option string) :
  format_citation JNull authors (of_int year) (of_str venue) = JNull
  /\ format_citation (JStr "") authors (of_int year) (of_str venue) = JNull
  /\ (forall title,
         title <> "" ->
         exists citation,
           format_citation (JStr title) authors (of_int year) (of_str venue)
           = JStr citation
           /\ citation
              = strip (author_clause authors ++ year_clause year ++ ". "
                       ++ title ++ "." ++ venue_clause venue)
           /\ trimmed_of (author_clause authors ++ year_clause year ++ ". "
                          ++ title ++ "." ++ venue_clause venue)
                         citation).
Proof.
  split; [reflexivity|]. split; [reflexivity|].
  intros title Ht. eexists. split; [|split; [reflexivity | apply strip_trimmed]].
  unfold format_citation. cbn [truthy].
  destruct (String.eqb_spec title ""); [congruence|]. cbn [negb].
  assert ((if TextWrap.is_nil (firstn 3 authors) then "Unknown"
           else if (List.length authors <=? 3)%nat
                then join ", " (firstn 3 authors)
                else join ", " (firstn 3 authors) ++ " et al.")
          = author_clause authors) as ->.
  { unfold author_clause. destruct authors as [|a rest]; [reflexivity|].
    cbn [firstn TextWrap.is_nil].
    destruct (Nat.leb_spec (List.length (a :: rest)) 3) as [L|L].
    - destruct (Nat.ltb_spec 3 (List.length (a :: rest))); [lia|].
      now rewrite append_nil_r.
    - destruct (Nat.ltb_spec 3 (List.length (a :: rest))); [reflexivity|lia]. }
  assert ((if truthy (of_int year) then " (" ++ str (of_int year) ++ ")" else "")
          = year_clause year) as ->.
  { destruct year as [y|]; [|reflexivity]. simpl.
    now destruct (y =? 0)%Z. }
  assert ((if truthy (of_str venue) then " " ++ str (of_str venue) ++ "." else "")
          = venue_clause venue) as ->.
  { destruct venue as [v|]; [|reflexivity]. simpl.
    now destruct (v =? ""). }
  reflexivity.
Qed.

(** An author name that starts with a blank: the blank is cut. *)
Lemma format_citation_form_witness :
  exists citation,
    format_citation (JStr "Attention Is All You Need")
                    ["  A. Vaswani"; "N. Shazeer"] (JInt 2017)
                    (JStr "NeurIPS")
    = JStr citation
    /\ citation
       = "A. Vaswani, N. Shazeer (2017). Attention Is All You Need. NeurIPS."
    /\ trimmed_of
         "  A. Vaswani, N. Shazeer (2017). Attention Is All You Need. NeurIPS."
         citation.
Proof.
  refine (proj2 (proj2 (format_citation_form ["  A. Vaswani"; "N. Shazeer"]
                          (Some 2017%Z) (Some "NeurIPS")))
                "Attention Is All You Need" _).
  discriminate.
Defined.

(** The examples of the specification. *)
Example format_citation_et_al :
  format_citation (JStr "Attention Is All You Need") ["A"; "B"; "C"; "D"]
                  (JInt 2017) (JStr "NeurIPS")
  = JStr "A, B, C et al. (2017). Attention Is All You Need. NeurIPS.".
Proof. reflexivity. Qed.

Example format_citation_unknown :
  format_citation (JStr "X") [] JNull JNull = JStr "Unknown. X.".
Proof. reflexivity. Qed.

Example format_citation_no_title :
  format_citation JNull [] (JInt 2020) (JStr "V") = JNull.
Proof. reflexivity. Qed.

(* ------------------------------------------------------------------ *)
(** ** Tags *)








(* ------------------------------------------------------------------ *)
(** ** Metadata lookup *)

Lemma fetch_metadata_top_hit (search : string -> response) (title : string)
      (paper : json) :
  top_hit search title paper ->
  fetch_metadata search title = normalize title paper.
Proof.
  intros [Hok [rest Hd]]. unfold fetch_metadata. rewrite Hok, Hd.
  reflexivity.
Qed.

(** The record [normalize] builds, field by field. *)
Lemma normalize_fields (title : string) (paper md : json) :
  normalize title paper = Ok md ->
  exists l authors venue year date paper_title abstract,
    paper = JDict l
    /\ get paper "year" = Ok year
    /\ get paper "publicationDate" = Ok date
    /\ get paper "title" = Ok paper_title
    /\ md = JDict
              [("title", match assoc "title" l with
                         | Some t => t
                         | None => JStr title
                         end);
               ("authors", JList (map JStr authors));
               ("venue", venue);
               ("year", year);
               ("publication_date",
                if truthy date then date
                else if truthy year then JStr (str year ++ "-01-01")
                     else JNull);
               ("citation", format_citation paper_title authors year venue);
               ("abstract", abstract)].
Proof.
  unfold normalize. intros H.
  bind_inv H. bind_inv H. bind_inv H. bind_inv H. bind_inv H.
  destruct (get paper "year") as [year|] eqn:Ey; cbn [bind] in H;
    [|discriminate].
  destruct (get paper "publicationDate") as [date|] eqn:Ed; cbn [bind] in H;
    [|discriminate].
  bind_inv H.
  destruct (get paper "title") as [paper_title|] eqn:Et; cbn [bind] in H;
    [|discriminate].
  bind_inv H. bind_inv H. inversion H; subst md. clear H.
  destruct (get_ok_dict _ _ _ Ey) as [l ->].
  exists l, a1, a3, year, date, paper_title, a6.
  repeat split; try reflexivity.
  assert (a4 = if truthy date then date
               else if truthy year then JStr (str year ++ "-01-01") else JNull)
    as ->.
  { unfold or_else in *. destruct (truthy date); congruence. }
  assert (a5 = match assoc "title" l with Some t => t | None => JStr title end)
    as ->.
  { unfold get_default in *. congruence. }
  reflexivity.
Qed.

(** C8, as amended: the publication date of the metadata is the date
    field of the result when that is a non-empty string; else the year
    followed by -01-01 when the year is an integer other than zero; else
    none. *)
Theorem publication_date_derivation (search : string -> response)
        (title : string) (paper md : json)
        (date : option string) (year : option Z) :
  top_hit search title paper ->
  fetch_metadata search title = Ok md ->
  get paper "publicationDate" = Ok (of_str date) ->
  get paper "year" = Ok (of_int year) ->
  get md "publication_date" = Ok (publication_date_spec date year).
Proof.
  intros Hit H Hd Hy. rewrite (fetch_metadata_top_hit _ _ _ Hit) in H.
  apply normalize_fields in H
    as (l & authors & venue & y & d & pt & ab & -> & Ey & Ed & _ & ->).
  assert (y = of_int year) as -> by congruence.
  assert (d = of_str date) as -> by congruence.
  cbn. f_equal.
  destruct date as [[|c r]|]; cbn; destruct year as [z|]; cbn;
    try reflexivity; now destruct (z =? 0)%Z.
Qed.

Lemma publication_date_derivation_witness :
  get (value_or JNull
         (fetch_metadata
            (search_one (JDict [("title", JStr "Foo Bar"); ("year", JInt 2019)]))
            "Foo Bar"))
      "publication_date"
  = Ok (JStr "2019-01-01").
Proof.
  refine (publication_date_derivation
            (search_one (JDict [("title", JStr "Foo Bar"); ("year", JInt 2019)]))
            "Foo Bar" (JDict [("title", JStr "Foo Bar"); ("year", JInt 2019)])
            _ None (Some 2019%Z) _ _ _ _).
  - split; [reflexivity|]. exists []. reflexivity.
  - reflexivity.
  - reflexivity.
  - reflexivity.
Defined.

(** C8, as stated, fails: a result whose year is the integer zero and
    which has no date gets no publication date. *)
Lemma year_zero_gives_no_date :
  let paper := JDict [("title", JStr "Foo Bar"); ("year", JInt 0)] in
  exists md,
    fetch_metadata (search_one paper) "Foo Bar" = Ok md
    /\ get md "publication_date" = Ok JNull
    /\ get md "publication_date" <> Ok (JStr (str_of_int 0 ++ "-01-01")).
Proof.
  eexists. split; [reflexivity|]. split; [reflexivity|discriminate].
Qed.

(** C10, as amended: when the result has no title field, the metadata
    carries the queried title; when it has one that is null or empty,
    the metadata carries that null or empty value; the citation is none
    in both cases. *)
Theorem title_fallback (search : string -> response) (title : string)
        (paper md : json) :
  top_hit search title paper ->
  fetch_metadata search title = Ok md ->
  forall fields,
    paper = JDict fields ->
    (assoc "title" fields = None ->
     get md "title" = Ok (JStr title) /\ get md "citation" = Ok JNull)
    /\ (forall t,
           assoc "title" fields = Some t -> truthy t = false ->
           get md "title" = Ok t /\ get md "citation" = Ok JNull).
Proof.
  intros Hit H fields ->. rewrite (fetch_metadata_top_hit _ _ _ Hit) in H.
  apply normalize_fields in H
    as (l & authors & venue & y & d & pt & ab & E & _ & _ & Et & ->).
  inversion E; subst l. clear E.
  unfold get, get_default in Et.
  split.
  - intros A. rewrite A in *. inversion Et; subst pt. split; reflexivity.
  - intros t A Ht. rewrite A in *. inversion Et; subst pt.
    cbn. unfold format_citation. rewrite Ht. split; reflexivity.
Qed.

Lemma title_fallback_witness :
  let md := value_or JNull
              (fetch_metadata (search_one (JDict [("year", JInt 2019)]))
                              "Foo Bar") in
  get md "title" = Ok (JStr "Foo Bar") /\ get md "citation" = Ok JNull.
Proof.
  refine (proj1 (title_fallback
                   (search_one (JDict [("year", JInt 2019)])) "Foo Bar"
                   (JDict [("year", JInt 2019)]) _ _ _
                   [("year", JInt 2019)] eq_refl) eq_refl).
  - split; [reflexivity|]. exists []. reflexivity.
  - reflexivity.
Defined.

(** C10, as stated, fails: a result whose title is the empty string
    gives metadata whose title is the empty string, not the title
    queried. *)
Lemma empty_title_is_kept :
  let paper := JDict [("title", JStr ""); ("year", JInt 2019)] in
  exists md,
    fetch_metadata (search_one paper) "Foo Bar" = Ok md
    /\ get md "title" = Ok (JStr "")
    /\ get md "title" <> Ok (JStr "Foo Bar")
    /\ get md "citation" = Ok JNull.
Proof.
  eexists. split; [reflexivity|]. split; [reflexivity|].
  split; [discriminate|reflexivity].
Qed.

(* ------------------------------------------------------------------ *)
(** * Further properties of the program *)

(* ------------------------------------------------------------------ *)
(** ** Missing fields and the payload *)

Lemma missing_loop_spec (properties : json) (attrs : list (option string)) :
  forall missing result,
    missing_loop properties attrs missing = Ok result ->
    forall k,
      In k result
      <-> In k missing
          \/ (exists attr, In attr attrs /\ configured attr = Some k
                           /\ fillable properties k).
Proof.
  induction attrs as [|attr rest IH]; intros missing result H k.
  - inversion H; subst. split; [now left|].
    intros [Hk | (attr & [] & _)]. exact Hk.
  - cbn [missing_loop] in H.
    destruct (configured attr) as [n|] eqn:C.
    + bind_inv H.
      destruct (truthy a) eqn:T; cbn [negb] in H.
      * bind_inv H. rewrite (IH _ _ H k). destruct a0.
        -- split.
           ++ intros [Hk | (attr' & Hin & C' & F)]; [now left|].
              right. exists attr'. split; [now right|]. now split.
           ++ intros [Hk | (attr' & [<- | Hin] & C' & F)]; [now left| |].
              ** exfalso. destruct F as (prop & G & _ & V).
                 assert (k = n) as -> by congruence. congruence.
              ** right. exists attr'. now repeat split.
        -- rewrite in_app_iff. split.
           ++ intros [[Hk | [<- | []]] | (attr' & Hin & C' & F)].
              ** now left.
              ** right. exists attr. split; [now left|]. split; [exact C|].
                 exists a. now repeat split.
              ** right. exists attr'. split; [now right|]. now split.
           ++ intros [Hk | (attr' & [<- | Hin] & C' & F)].
              ** now left; left.
              ** left; right; left. congruence.
              ** right. exists attr'. now repeat split.
      * rewrite (IH _ _ H k). split.
        -- intros [Hk | (attr' & Hin & C' & F)]; [now left|].
           right. exists attr'. split; [now right|]. now split.
        -- intros [Hk | (attr' & [<- | Hin] & C' & F)]; [now left| |].
           ++ exfalso. destruct F as (prop & G & T' & _).
              assert (k = n) as -> by congruence. congruence.
           ++ right. exists attr'. now repeat split.
    + rewrite (IH _ _ H k). split.
      * intros [Hk | (attr' & Hin & C' & F)]; [now left|].
        right. exists attr'. split; [now right|]. now split.
      * intros [Hk | (attr' & [<- | Hin] & C' & F)]; [now left|congruence|].
        right. exists attr'. now repeat split.
Qed.

Lemma missing_fields_iff (props : PropertyConfig.t)
      (page properties : json) (missing : list string) :
  properties_of page = Ok properties ->
  _missing_fields props page = Ok missing ->
  forall k,
    In k missing
    <-> In (Some k) (tracked props) /\ k <> "" /\ fillable properties k.
Proof.
  intros Hp H k. unfold _missing_fields in H. rewrite Hp in H. cbn [bind] in H.
  rewrite (missing_loop_spec _ _ _ _ H k). split.
  - intros [[] | (attr & Hin & C & F)].
    apply configured_iff in C as [-> Hk]. now repeat split.
  - intros (Hin & Hk & F). right. exists (Some k).
    split; [exact Hin|]. split; [now apply configured_iff | exact F].
Qed.

(** X1.  [_missing_fields] lists exactly the properties the reconciler
    may fill: a name is reported missing if and only if it is the
    non-empty name configured for one of the five tracked roles, the
    record carries a (truthy) property of that name, and
    [property_has_value] is false for it.  A tracked name that is not on
    the record is never reported. *)
Theorem missing_fields_exact (props : PropertyConfig.t)
        (page properties : json) (missing : list string) :
  properties_of page = Ok properties ->
  _missing_fields props page = Ok missing ->
  forall k,
    In k missing
    <-> In (Some k) (tracked props) /\ k <> "" /\ fillable properties k.
Proof. apply missing_fields_iff. Qed.

Lemma missing_fields_exact_witness :
  In "Venue" ["Year"; "Venue"; "Abstract"]
  <-> In (Some "Venue") (tracked default_props) /\ "Venue" <> ""
      /\ fillable (value_or JNull (properties_of sample_page)) "Venue".
Proof.
  exact (missing_fields_exact default_props sample_page
           (value_or JNull (properties_of sample_page))
           ["Year"; "Venue"; "Abstract"] eq_refl eq_refl "Venue").
Defined.

(** X2.  The update payload names only properties that [_missing_fields]
    reports for the same record, whatever the metadata; when nothing is
    missing the payload is empty. *)
Theorem payload_names_only_missing (props : PropertyConfig.t)
        (page metadata : json) (missing : list string) (update : payload) :
  _missing_fields props page = Ok missing ->
  _build_update_payload props page metadata = Ok update ->
  (forall k, In k (keys update) -> In k missing)
  /\ (missing = [] -> update = []).
Proof.
  intros Hm Hb.
  assert (exists properties, properties_of page = Ok properties) as [properties Hp].
  { unfold _missing_fields in Hm. destruct (properties_of page); [|discriminate].
    now eexists. }
  assert (forall k, In k (keys update) -> In k missing) as Sub.
  { intros k Hk. apply in_keys in Hk as [v Hin].
    destruct (build_update_payload_entries _ _ _ _ _ Hb Hp k v Hin)
      as (Ht & Hn & F & _).
    apply (missing_fields_iff _ _ _ _ Hp Hm). now repeat split. }
  split; [exact Sub|].
  intros ->. destruct update as [|[k v] rest]; [reflexivity|].
  destruct (Sub k (or_introl eq_refl)).
Qed.

Lemma payload_names_only_missing_witness :
  In "Venue" ["Year"; "Venue"; "Abstract"].
Proof.
  apply (proj1 (payload_names_only_missing default_props sample_page
                  sample_metadata ["Year"; "Venue"; "Abstract"]
                  first_update eq_refl eq_refl)).
  vm_compute. tauto.
Defined.

(* ------------------------------------------------------------------ *)
(** ** The shape of a built value *)

(** X3.  A value built by [build_property_value] is a dict with the
    single key of the property's kind, and that kind is one of rich_text,
    title, multi_select and date.  For a date the content is
    [{"start": value}] with [value] a non-empty string; for the other
    kinds the content is a list. *)
Theorem built_value_shape (prop value v : json) :
  build_property_value prop value = Ok v ->
  v <> JNull ->
  exists kind content,
    get prop "type" = Ok (JStr kind)
    /\ supported (JStr kind) = true
    /\ v = JDict [(kind, content)]
    /\ (kind = "date" ->
        content = JDict [("start", value)]
        /\ exists s, value = JStr s /\ s <> "")
    /\ (kind <> "date" -> exists items, content = JList items).
Proof. apply build_property_value_shape. Qed.

Lemma built_value_shape_witness :
  exists kind content,
    get (JDict [("type", JStr "date"); ("date", JNull)]) "type"
    = Ok (JStr kind)
    /\ supported (JStr kind) = true
    /\ JDict [("date", JDict [("start", JStr "2021-01-01")])]
       = JDict [(kind, content)].
Proof.
  destruct (built_value_shape
              (JDict [("type", JStr "date"); ("date", JNull)])
              (JStr "2021-01-01")
              (JDict [("date", JDict [("start", JStr "2021-01-01")])])
              eq_refl)
    as (kind & content & G & S & E & _); [discriminate|].
  exists kind, content. now repeat split.
Defined.

(** X4.  Every entry of the update payload is keyed by the kind of the
    record's property of that name: the value stored under [name] is
    [{kind: content}] where [kind] is the type of [properties[name]], one
    of the four supported kinds. *)
Theorem payload_values_match_their_property (props : PropertyConfig.t)
        (page metadata properties : json) (update : payload) :
  _build_update_payload props page metadata = Ok update ->
  properties_of page = Ok properties ->
  forall name v,
    In (name, v) update ->
    exists prop kind content,
      get properties name = Ok prop
      /\ get prop "type" = Ok (JStr kind)
      /\ supported (JStr kind) = true
      /\ v = JDict [(kind, content)].
Proof.
  intros H Hp name v Hin.
  destruct (build_update_payload_entries _ _ _ _ _ H Hp name v Hin)
    as (_ & _ & _ & prop & field & value & G & _ & B & NN).
  destruct (build_property_value_shape _ _ _ B NN)
    as (kind & content & Gt & S & E & _).
  exists prop, kind, content. now repeat split.
Qed.

Lemma payload_values_match_their_property_witness :
  exists prop kind content,
    get (value_or JNull (properties_of sample_page)) "Year" = Ok prop
    /\ get prop "type" = Ok (JStr kind)
    /\ supported (JStr kind) = true
    /\ JDict [("date", JDict [("start", JStr "2021-01-01")])]
       = JDict [(kind, content)].
Proof.
  apply (payload_values_match_their_property default_props sample_page
           sample_metadata (value_or JNull (properties_of sample_page))
           first_update eq_refl eq_refl "Year").
  vm_compute. tauto.
Defined.

(** A property whose kind is a string the constructor does not know. *)
Lemma unsupported_has_no_value (prop : json) (kind : string) :
  get prop "type" = Ok (JStr kind) ->
  supported (JStr kind) = false ->
  property_has_value prop = Ok false.
Proof.
  intros G S. unfold property_has_value. rewrite G. cbn [bind].
  destruct prop; try discriminate. cbn [get_value].
  destruct (get (JDict d) kind) as [value|] eqn:Gv; [|discriminate Gv].
  cbn [bind]. unfold supported in S.
  apply orb_false_iff in S as [S Sd]. apply orb_false_iff in S as [S Sm].
  apply orb_false_iff in S as [Sr St].
  rewrite St, Sr, Sm, Sd. now destruct value.
Qed.

Lemma build_unsupported (prop value : json) (kind : string) :
  get prop "type" = Ok (JStr kind) ->
  supported (JStr kind) = false ->
  build_property_value prop value = Ok JNull.
Proof.
  intros G S. destruct (build_property_value prop value) as [v|e] eqn:B.
  - destruct v; try reflexivity;
      (destruct (build_property_value_shape _ _ _ B) as (k & c & G' & S' & _);
       [discriminate|congruence]).
  - exfalso. unfold build_property_value in B.
    destruct (match value with JNull => true | _ => is_str "" value end);
      [discriminate|].
    destruct (truthy prop); cbn [negb] in B; [|discriminate].
    rewrite G in B. cbn [bind] in B. unfold supported in S.
    apply orb_false_iff in S as [S Sd]. apply orb_false_iff in S as [S Sm].
    apply orb_false_iff in S as [Sr St].
    rewrite St, Sr, Sm, Sd in B. discriminate.
Qed.

(** X5.  For a record with a title, a tracked property of a kind the
    constructor does not know (a number, say) is reported missing by
    [_missing_fields], so [run] looks the record up, with one lookup of
    its title; yet the property is never part of the update payload. *)
Theorem unsupported_kind_missing_but_never_filled (props : PropertyConfig.t)
        (lookup : string -> result json)
        (page properties prop : json) (name kind title : string)
        (missing : list string) :
  properties_of page = Ok properties ->
  In (Some name) (tracked props) ->
  name <> "" ->
  get properties name = Ok prop ->
  get prop "type" = Ok (JStr kind) ->
  supported (JStr kind) = false ->
  _extract_title props page = Ok title ->
  title <> "" ->
  _missing_fields props page = Ok missing ->
  In name missing
  /\ fst (reconcile props lookup page) = [title]
  /\ (forall metadata update,
         _build_update_payload props page metadata = Ok update ->
         ~ In name (keys update))
  /\ (forall update,
         snd (reconcile props lookup page) = Ok update ->
         ~ In name (keys update)).
Proof.
  intros Hp Ht Hn G Gt S Et Hne Hm.
  assert (In name missing) as Hin.
  { apply (missing_fields_iff _ _ _ _ Hp Hm). repeat split; auto.
    exists prop. split; [exact G|]. split.
    - apply (get_found_truthy prop "type" (JStr kind) Gt). discriminate.
    - now apply (unsupported_has_no_value prop kind). }
  assert (forall metadata update,
             _build_update_payload props page metadata = Ok update ->
             ~ In name (keys update)) as Never.
  { intros metadata update Hb Hk. apply in_keys in Hk as [v Hv].
    destruct (build_update_payload_entries _ _ _ _ _ Hb Hp name v Hv)
      as (_ & _ & _ & prop' & field & value & G' & _ & B & NN).
    assert (prop' = prop) as -> by congruence.
    rewrite (build_unsupported prop value kind Gt S) in B. congruence. }
  split; [exact Hin|].
  unfold reconcile. rewrite Et, Hm.
  destruct (String.eqb_spec title ""); [congruence|].
  destruct missing as [|m rest]; [destruct Hin|]. cbn [TextWrap.is_nil].
  destruct (lookup title) as [metadata|e].
  - destruct (truthy metadata); cbn [negb fst snd].
    + split; [reflexivity|]. split; [exact Never|]. apply Never.
    + split; [reflexivity|]. split; [exact Never|].
      intros update H. inversion H. intros [].
  - cbn [fst snd]. split; [reflexivity|]. split; [exact Never|].
    intros update H. discriminate H.
Qed.

Lemma unsupported_kind_missing_but_never_filled_witness :
  In "Year" ["Year"]
  /\ fst (reconcile default_props (fun _ => Ok sample_metadata)
                    number_year_page)
     = ["Foo Bar"]
  /\ (forall metadata update,
         _build_update_payload default_props number_year_page metadata
         = Ok update ->
         ~ In "Year" (keys update))
  /\ (forall update,
         snd (reconcile default_props (fun _ => Ok sample_metadata)
                        number_year_page)
         = Ok update ->
         ~ In "Year" (keys update)).
Proof.
  apply (unsupported_kind_missing_but_never_filled default_props
           (fun _ => Ok sample_metadata) number_year_page
           (value_or JNull (properties_of number_year_page))
           (JDict [("type", JStr "number"); ("number", JNull)])
           "Year" "number" "Foo Bar" ["Year"]);
    try reflexivity.
  - simpl. tauto.
  - discriminate.
  - discriminate.
Defined.

(* ------------------------------------------------------------------ *)
(** ** Trimmed text *)





(* ------------------------------------------------------------------ *)
(** ** No empty segment *)

Lemma concat_filled (l : list string) :
  l <> [] -> Forall filled l -> concat l <> "".
Proof.
  destruct l as [|x r]; [congruence|]. intros _ F. inversion F; subst.
  simpl. destruct x; [exfalso; now apply H1 | discriminate].
Qed.

Lemma blank_empty : TextWrap.blank "" = true.
Proof. reflexivity. Qed.

Lemma wrap_step_filled (width : nat) (chunks lines chunks' lines' : list string) :
  1 <= width ->
  TextWrap.wrap_step width chunks lines = (chunks', lines') ->
  Forall filled chunks ->
  Forall filled lines ->
  Forall filled chunks' /\ Forall filled lines'.
Proof.
  intros Hw H Fc Fl. unfold TextWrap.wrap_step in H.
  set (chunks1 := match chunks with
                  | first :: rest =>
                      if TextWrap.blank first && negb (TextWrap.is_nil lines)
                      then rest else chunks
                  | [] => chunks
                  end) in H.
  assert (Forall filled chunks1) as F1.
  { subst chunks1. destruct chunks as [|first rest]; [constructor|].
    destruct (TextWrap.blank first && negb (TextWrap.is_nil lines));
      [now inversion Fc | exact Fc]. }
  clearbody chunks1.
  destruct (TextWrap.fill width 0 chunks1) as [[cur_line cur_len] chunks2] eqn:EF.
  destruct (fill_spec _ _ _ _ _ _ EF) as (E1 & E2 & E3 & _).
  rewrite E1 in F1. apply Forall_app in F1 as [Fline F2].
  specialize (E3 (Nat.le_0_l _)).
  assert (exists chunks3 cur_line2,
             (chunks', lines')
             = (chunks3,
                if TextWrap.is_nil cur_line2 then lines
                else (lines ++ [concat cur_line2])%list)
             /\ Forall filled chunks3 /\ Forall filled cur_line2)
    as (chunks3 & cur_line2 & E & F3 & Fcl).
  { destruct chunks2 as [|c rest].
    - exists [], (TextWrap.drop_trailing_blank cur_line).
      split; [now rewrite <- H|]. split; [constructor|].
      destruct (drop_trailing_blank_spec cur_line) as [-> | [x [_ Ex]]];
        [exact Fline|].
      rewrite Ex in Fline. now apply Forall_app in Fline.
    - destruct (Nat.ltb_spec width (String.length c)) as [Hlong | Hshort].
      + cbn [TextWrap._handle_long_word] in H.
        pose proof (long_word_end_le c cur_len width Hw) as Le.
        set (e := TextWrap.long_word_end c cur_len width) in *.
        exists (drop e c :: rest),
               (TextWrap.drop_trailing_blank (cur_line ++ [take e c])).
        split; [now rewrite <- H|]. split.
        * inversion F2; subst. constructor; [|assumption].
          apply filled_length. rewrite length_drop. lia.
        * unfold TextWrap.drop_trailing_blank.
          rewrite rev_app_distr. cbn [rev app].
          destruct (TextWrap.blank (take e c)) eqn:B.
          -- now rewrite removelast_last.
          -- apply Forall_app. split; [exact Fline|].
             constructor; [|constructor]. intros Ee. rewrite Ee in B.
             discriminate B.
      + exists (c :: rest), (TextWrap.drop_trailing_blank cur_line).
        split; [now rewrite <- H|]. split; [exact F2|].
        destruct (drop_trailing_blank_spec cur_line) as [-> | [x [_ Ex]]];
          [exact Fline|].
        rewrite Ex in Fline. now apply Forall_app in Fline. }
  inversion E; subst chunks' lines'. split; [exact F3|].
  destruct cur_line2 as [|x r]; [exact Fl|]. cbn [TextWrap.is_nil].
  apply Forall_app. split; [exact Fl|]. constructor; [|constructor].
  apply concat_filled; [discriminate | exact Fcl].
Qed.

Lemma wrap_loop_filled (width : nat) :
  1 <= width ->
  forall fuel chunks lines res,
    TextWrap.wrap_loop fuel width chunks lines = Some res ->
    Forall filled chunks -> Forall filled lines -> Forall filled res.
Proof.
  intros Hw. induction fuel as [|fuel IH]; intros chunks lines res H Fc Fl.
  - destruct chunks; [|discriminate]. now inversion H; subst.
  - destruct chunks as [|c rest]; [now inversion H; subst|].
    cbn [TextWrap.wrap_loop] in H.
    destruct (TextWrap.wrap_step width (c :: rest) lines)
      as [chunks' lines'] eqn:E.
    destruct (wrap_step_filled _ _ _ _ _ Hw E Fc Fl) as [Fc' Fl'].
    now apply (IH _ _ _ H).
Qed.

Lemma wrap_filled (text : string) (width : nat) (lines : list string) :
  1 <= width ->
  TextWrap.wrap text width = Ok lines -> Forall filled lines.
Proof.
  intros Hw H. unfold TextWrap.wrap, TextWrap._wrap_chunks in H.
  destruct (Nat.eqb_spec width 0); [discriminate|].
  destruct (TextWrap.wrap_loop _ width _ []) as [res|] eqn:E.
  - inversion H; subst res.
    apply (wrap_loop_filled width Hw _ _ _ _ E); [|constructor].
    apply split_from_filled.
  - inversion H. constructor.
Qed.

(** X7.  [build_rich_text] never raises on a string and never builds an
    empty text segment; it builds no segment at all exactly when the
    string is empty or whitespace only. *)
Theorem rich_text_segments_are_never_empty (s : string) :
  exists segs,
    build_rich_text (JStr s) = Ok (map text_segment segs)
    /\ Forall (fun seg => seg <> "") segs
    /\ (segs = [] <-> strip s = "").
Proof.
  unfold build_rich_text.
  destruct (String.eqb_spec (strip s) "") as [E | NE].
  - exists []. repeat split; auto.
  - assert (1 <= 1800) as Hw by lia.
    destruct (wrap_spec (strip s) 1800 Hw) as (lines & W & _ & Q & _).
    rewrite W. cbn [bind].
    destruct lines as [|l ls].
    + exfalso. apply (squeeze_strip_nonempty s NE). now rewrite <- Q.
    + exists (l :: ls). cbn [TextWrap.is_nil]. split; [reflexivity|]. split.
      * exact (wrap_filled _ _ _ Hw W).
      * split; [discriminate | congruence].
Qed.

(* ------------------------------------------------------------------ *)
(** ** The form of a citation *)






Lemma firstn_3_of_four {A} (a b c d : A) (rest : list A) :
  firstn 3 (a :: b :: c :: d :: rest) = [a; b; c].
Proof. reflexivity. Qed.

(** X9.  With more than three authors, the citation depends on the
    first three only: the names after the third are never printed. *)
Theorem citation_ignores_authors_after_the_third (title year venue : json)
        (a b c d d' : string) (rest rest' : list string) :
  format_citation title (a :: b :: c :: d :: rest) year venue
  = format_citation title (a :: b :: c :: d' :: rest') year venue.
Proof.
  unfold format_citation. rewrite !firstn_3_of_four.
  cbn [List.length Nat.leb]. reflexivity.
Qed.

(* ------------------------------------------------------------------ *)
(** ** The authors of a search result *)

Lemma author_names_ok (authors : list json) (names : list string) :
  Forall2 names_author authors names ->
  author_names authors = Ok (map strip (filter nonempty names)).
Proof.
  induction 1 as [|author name authors names (fields & -> & A) _ IH];
    [reflexivity|].
  cbn [author_names]. unfold get, get_default. rewrite A. cbn [bind truthy].
  unfold nonempty at 1. cbn [filter].
  destruct (negb (name =? "")); [|exact IH].
  rewrite IH. reflexivity.
Qed.



(* ------------------------------------------------------------------ *)
(** ** What a lookup returns *)

Lemma fetch_metadata_cases (search : string -> response) (title : string)
      (md : json) :
  fetch_metadata search title = Ok md ->
  md = JNull \/ exists paper, normalize title paper = Ok md.
Proof.
  unfold fetch_metadata. destruct (ok (search title)); cbn [negb];
    [|intros H; inversion H; now left].
  intros H. bind_inv H. bind_inv H.
  destruct (truthy a0); cbn [negb] in H; [|inversion H; now left].
  bind_inv H. right. now exists a1.
Qed.

(** X11.  When [fetch_metadata] returns, the result is [None] or a
    (truthy) dict with exactly the seven keys title, authors, venue,
    year, publication_date, citation and abstract, in this order, whose
    authors entry is a list of strings. *)
Theorem lookup_returns_none_or_the_seven_fields
        (search : string -> response) (title : string) (md : json) :
  fetch_metadata search title = Ok md ->
  md = JNull
  \/ (dict_keys md
      = ["title"; "authors"; "venue"; "year"; "publication_date"; "citation";
         "abstract"]
      /\ truthy md = true
      /\ exists names, get md "authors" = Ok (JList (map JStr names))).
Proof.
  intros H. apply fetch_metadata_cases in H as [-> | [paper H]]; [now left|].
  right. apply normalize_fields in H
    as (l & authors & venue & y & d & pt & ab & _ & _ & _ & _ & ->).
  split; [reflexivity|]. split; [reflexivity|]. now exists authors.
Qed.

Lemma lookup_returns_none_or_the_seven_fields_witness :
  let md := value_or JNull
              (fetch_metadata (search_one (JDict [("year", JInt 2019)]))
                              "Foo Bar") in
  md = JNull
  \/ (dict_keys md
      = ["title"; "authors"; "venue"; "year"; "publication_date"; "citation";
         "abstract"]
      /\ truthy md = true
      /\ exists names, get md "authors" = Ok (JList (map JStr names))).
Proof.
  apply (lookup_returns_none_or_the_seven_fields
           (search_one (JDict [("year", JInt 2019)])) "Foo Bar").
  reflexivity.
Defined.

(** The venue [normalize] settles on. *)
Lemma normalize_venue (title : string) (paper md : json) :
  normalize title paper = Ok md ->
  exists direct,
    get paper "venue" = Ok direct
    /\ (truthy direct = true -> get md "venue" = Ok direct)
    /\ (truthy direct = false ->
        exists pv,
          get_default paper "publicationVenue" (JDict []) = Ok pv
          /\ get pv "name" = get md "venue").
Proof.
  unfold normalize. intros H.
  bind_inv H. bind_inv H. bind_inv H.
  destruct (get paper "venue") as [direct|] eqn:Ev; cbn [bind] in H;
    [|discriminate].
  exists direct. split; [reflexivity|].
  unfold or_else at 1 in H.
  destruct (truthy direct) eqn:T.
  - cbn [bind] in H. bind_inv H. bind_inv H. bind_inv H. bind_inv H.
    bind_inv H. bind_inv H. inversion H; subst md.
    split; [reflexivity | discriminate].
  - destruct (get_default paper "publicationVenue" (JDict [])) as [pv|] eqn:Ep;
      cbn [bind] in H; [|discriminate].
    destruct (get pv "name") as [venue|] eqn:En; cbn [bind] in H;
      [|discriminate].
    bind_inv H. bind_inv H. bind_inv H. bind_inv H. bind_inv H. bind_inv H.
    inversion H; subst md.
    split; [discriminate|]. intros _. exists pv.
    split; [reflexivity | now rewrite En].
Qed.

(** X12.  The venue of the metadata is the hit's [venue] when that is
    truthy, and otherwise the [name] of its [publicationVenue] ([None]
    when there is none).  The default [{}] applies only to a missing
    key: a hit whose venue is falsy and whose [publicationVenue] is
    present but null makes [fetch_metadata] raise [AttributeError]. *)
Theorem venue_falls_back_to_the_publication_venue
        (search : string -> response) (title : string) (paper : json) :
  top_hit search title paper ->
  (forall md,
      fetch_metadata search title = Ok md ->
      exists direct,
        get paper "venue" = Ok direct
        /\ (truthy direct = true -> get md "venue" = Ok direct)
        /\ (truthy direct = false ->
            exists pv,
              get_default paper "publicationVenue" (JDict []) = Ok pv
              /\ get pv "name" = get md "venue"))
  /\ (forall fields authors names direct,
         paper = JDict fields ->
         get_default paper "authors" (JList []) = Ok (JList authors) ->
         Forall2 names_author authors names ->
         get paper "venue" = Ok direct ->
         truthy direct = false ->
         assoc "publicationVenue" fields = Some JNull ->
         fetch_metadata search title = Raise AttributeError).
Proof.
  intros Hit. rewrite (fetch_metadata_top_hit _ _ _ Hit). split.
  - intros md H. now apply (normalize_venue title).
  - intros fields authors names direct -> Ha Hn Hv T Hpv.
    unfold normalize. rewrite Ha. cbn [bind iter].
    rewrite (author_names_ok _ _ Hn). cbn [bind].
    rewrite Hv. cbn [bind]. unfold or_else at 1. rewrite T.
    unfold get_default at 1. rewrite Hpv. reflexivity.
Qed.

Lemma venue_falls_back_to_the_publication_venue_witness :
  fetch_metadata (search_one null_venue_paper) "Foo Bar"
  = Raise AttributeError.
Proof.
  refine (proj2 (venue_falls_back_to_the_publication_venue
                   (search_one null_venue_paper) "Foo Bar" null_venue_paper _)
                [("title", JStr "Foo Bar"); ("venue", JStr "");
                 ("publicationVenue", JNull)]
                [] [] (JStr "") eq_refl eq_refl _ eq_refl eq_refl eq_refl).
  - split; [reflexivity|]. exists []. reflexivity.
  - constructor.
Defined.

(* ------------------------------------------------------------------ *)
(** ** The outbound calls of [run] *)

Lemma extract_title_trimmed (props : PropertyConfig.t) (page : json)
      (title : string) :
  _extract_title props page = Ok title -> strip title = title.
Proof.
  unfold _extract_title. intros H. bind_inv H. bind_inv H.
  destruct (truthy a0); cbn [negb] in H; [|now inversion H].
  bind_inv H. destruct (is_str "title" a1); cbn [negb] in H;
    [|now inversion H].
  bind_inv H. bind_inv H. bind_inv H. bind_inv H. inversion H.
  apply strip_idem.
Qed.

Lemma reconcile_cases (props : PropertyConfig.t)
      (lookup : string -> result json) (page : json) :
  (fst (reconcile props lookup page) = []
   /\ (snd (reconcile props lookup page) = Ok []
       \/ exists e, snd (reconcile props lookup page) = Raise e))
  \/ (exists title,
         fst (reconcile props lookup page) = [title]
         /\ _extract_title props page = Ok title
         /\ title <> "").
Proof.
  unfold reconcile.
  destruct (_extract_title props page) as [title|e] eqn:Et;
    [|left; split; [reflexivity | right; now exists e]].
  destruct (String.eqb_spec title "") as [-> | Hn];
    [left; split; [reflexivity | now left]|].
  destruct (_missing_fields props page) as [missing|e];
    [|left; split; [reflexivity | right; now exists e]].
  destruct (TextWrap.is_nil missing);
    [left; split; [reflexivity | now left]|].
  right. exists title.
  destruct (lookup title) as [metadata|e]; [|now repeat split].
  destruct (truthy metadata); now repeat split.
Qed.

Lemma patches_app (a b : list event) : patches (a ++ b) = (patches a ++ patches b)%list.
Proof. apply filter_app. Qed.

Lemma lookups_app (a b : list event) : lookups (a ++ b) = (lookups a ++ lookups b)%list.
Proof. apply filter_app. Qed.

Lemma patches_map_lookup (q : list string) : patches (map Lookup q) = [].
Proof. induction q; simpl; auto. Qed.

Lemma lookups_map_lookup (q : list string) : lookups (map Lookup q) = map Lookup q.
Proof. induction q; simpl; [reflexivity|]. now rewrite IHq. Qed.

Ltac run_facts_intro :=
  unfold run_facts;
  refine (conj _ (conj _ (conj _ (conj _ (conj _ _))))).

Lemma run_loop_inv (props : PropertyConfig.t)
      (lookup : string -> result json)
      (patch : json -> payload -> result unit) (dry_run : bool)
      (pages : list json) :
  forall trace updated trace' r,
    run_loop props lookup patch dry_run pages trace updated = (trace', r) ->
    exists new,
      trace' = (trace ++ new)%list
      /\ run_facts props lookup dry_run pages updated new r.
Proof.
  induction pages as [|page rest IH]; intros trace updated trace' r H.
  - inversion H; subst. exists []. rewrite app_nil_r. split; [reflexivity|].
    run_facts_intro; simpl.
    + lia.
    + lia.
    + reflexivity.
    + intros n E. inversion E. lia.
    + intros id update [].
    + intros title [].
  - cbn [run_loop] in H.
    destruct (reconcile props lookup page) as [q outcome] eqn:R.
    pose proof (reconcile_cases props lookup page) as Cases.
    rewrite R in Cases. cbn [fst snd] in Cases.
    assert (List.length q <= 1
            /\ (forall title, In title q ->
                              _extract_title props page = Ok title
                              /\ title <> "")) as [Lq Tq].
    { destruct Cases as [[-> _] | (title & -> & Et & Hn)].
      - split; [simpl; lia | intros t []].
      - split; [simpl; lia | intros t [<- | []]; now split]. }
    assert (forall title, In (Lookup title) (map Lookup q) ->
                          exists p, In p (page :: rest)
                                    /\ _extract_title props p = Ok title
                                    /\ title <> "") as LQ.
    { intros title Hin. apply in_map_iff in Hin as (t & E & Hin).
      inversion E; subst t. exists page. split; [now left|]. now apply Tq. }
    assert (forall id update, ~ In (Patch id update) (map Lookup q)) as NP.
    { intros id update Hin. apply in_map_iff in Hin as (t & E & _).
      discriminate E. }
    assert (run_facts props lookup dry_run (page :: rest) updated
                      (map Lookup q) (Raise AttributeError)
            /\ forall e, run_facts props lookup dry_run (page :: rest) updated
                                   (map Lookup q) (Raise e)) as [_ Stop].
    { assert (forall e, run_facts props lookup dry_run (page :: rest) updated
                                  (map Lookup q) (Raise e)) as S.
      { intros e. run_facts_intro;
          rewrite ?lookups_map_lookup, ?patches_map_lookup, ?length_map;
          cbn [List.length].
        - lia.
        - lia.
        - reflexivity.
        - intros n E. discriminate E.
        - intros id u Hin. destruct (NP _ _ Hin).
        - exact LQ. }
      split; [apply S | exact S]. }
    destruct outcome as [update|e];
      [|inversion H; subst trace' r; exists (map Lookup q);
        split; [reflexivity | apply Stop]].
    destruct (TextWrap.is_nil update || dry_run) eqn:Skip.
    + apply IH in H as (new & -> & F1 & F2 & F3 & F4 & F5 & F6).
      exists (map Lookup q ++ new)%list. split; [now rewrite app_assoc|].
      run_facts_intro;
        rewrite ?lookups_app, ?patches_app, ?lookups_map_lookup,
          ?patches_map_lookup, ?length_app, ?length_map;
        cbn [app List.length].
      * lia.
      * lia.
      * exact F3.
      * exact F4.
      * intros id u Hin.
        apply in_app_iff in Hin as [Hin | Hin]; [destruct (NP _ _ Hin)|].
        destruct (F5 _ _ Hin) as (Hu & p & Hp & Hi & Hr).
        split; [exact Hu|]. exists p. split; [now right | now split].
      * intros title Hin. apply in_app_iff in Hin as [Hin | Hin];
          [now apply LQ|].
        destruct (F6 _ Hin) as (p & Hp & Ht).
        exists p. split; [now right | exact Ht].
    + apply orb_false_iff in Skip as [Hnil Hdry].
      assert (update <> []) as Hne by (intros ->; discriminate Hnil).
      assert (List.length q = 1) as Lq1.
      { destruct Cases as [[_ [E | [e E]]] | (title & -> & _)];
          [congruence | discriminate | reflexivity]. }
      destruct (getitem page "id") as [page_id|e] eqn:Hid;
        [|inversion H; subst trace' r; exists (map Lookup q);
          split; [reflexivity | apply Stop]].
      assert (forall id u,
                 In (Patch id u) (map Lookup q ++ [Patch page_id update]) ->
                 u <> []
                 /\ exists p, In p (page :: rest)
                              /\ getitem p "id" = Ok id
                              /\ snd (reconcile props lookup p) = Ok u)
        as PQ.
      { intros id u Hin. apply in_app_iff in Hin as [Hin | [E | []]];
          [destruct (NP _ _ Hin)|].
        inversion E; subst id u. split; [exact Hne|].
        exists page. split; [now left|]. split; [exact Hid|].
        now rewrite R. }
      destruct (patch page_id update) as [[]|e].
      * apply IH in H as (new & -> & F1 & F2 & F3 & F4 & F5 & F6).
        exists ((map Lookup q ++ [Patch page_id update]) ++ new)%list.
        split; [now rewrite !app_assoc|].
        run_facts_intro;
          rewrite ?lookups_app, ?patches_app, ?lookups_map_lookup,
            ?patches_map_lookup, ?length_app, ?length_map;
          cbn [app List.length lookups patches filter is_lookup is_patch].
        -- lia.
        -- lia.
        -- intros Ed. congruence.
        -- intros n E. rewrite (F4 n E). lia.
        -- intros id u Hin.
           apply in_app_iff in Hin as [Hin | Hin]; [now apply PQ|].
           destruct (F5 _ _ Hin) as (Hu & p & Hp & Hi & Hr).
           split; [exact Hu|]. exists p. split; [now right | now split].
        -- intros title Hin.
           apply in_app_iff in Hin as [Hin | Hin].
           ++ apply in_app_iff in Hin as [Hin | [E | []]];
                [now apply LQ | discriminate E].
           ++ destruct (F6 _ Hin) as (p & Hp & Ht).
              exists p. split; [now right | exact Ht].
      * inversion H; subst trace' r.
        exists (map Lookup q ++ [Patch page_id update])%list.
        split; [now rewrite app_assoc|].
        run_facts_intro;
          rewrite ?lookups_app, ?patches_app, ?lookups_map_lookup,
            ?patches_map_lookup, ?length_app, ?length_map;
          cbn [app List.length lookups patches filter is_lookup is_patch].
        -- lia.
        -- lia.
        -- intros Ed. congruence.
        -- intros n E. discriminate E.
        -- exact PQ.
        -- intros title Hin.
           apply in_app_iff in Hin as [Hin | [E | []]];
             [now apply LQ | discriminate E].
Qed.

Lemma run_facts_hold (props : PropertyConfig.t)
      (lookup : string -> result json)
      (patch : json -> payload -> result unit) (dry_run : bool)
      (pages : list json) (trace : list event) (r : result Z) :
  run props lookup patch dry_run pages = (trace, r) ->
  run_facts props lookup dry_run pages 0%Z trace r.
Proof.
  unfold run. intros H. apply run_loop_inv in H as (new & -> & F). exact F.
Qed.

Lemma not_in_patches (trace : list event) :
  patches trace = [] -> forall id update, ~ In (Patch id update) trace.
Proof.
  intros H id update Hin.
  assert (In (Patch id update) (patches trace)) as Hp
      by (apply filter_In; now split).
  rewrite H in Hp. destruct Hp.
Qed.

(** X13.  A dry run never writes: no PATCH request is part of its
    trace, for every list of pages and every lookup, and the count of
    updated pages stays 0. *)
Theorem dry_run_never_writes (props : PropertyConfig.t)
        (lookup : string -> result json)
        (patch : json -> payload -> result unit) (pages : list json) :
  (forall id update,
      ~ In (Patch id update) (fst (run props lookup patch true pages)))
  /\ (forall n, snd (run props lookup patch true pages) = Ok n -> n = 0%Z).
Proof.
  destruct (run props lookup patch true pages) as [trace r] eqn:H.
  apply run_facts_hold in H as (_ & _ & F3 & F4 & _). cbn [fst snd].
  split.
  - apply not_in_patches. now apply F3.
  - intros n E. rewrite (F4 n E), (F3 eq_refl). reflexivity.
Qed.

Lemma dry_run_never_writes_witness :
  (forall id update,
      ~ In (Patch id update)
           (fst (run default_props sample_lookup always_ok true [sample_page])))
  /\ (forall n,
         snd (run default_props sample_lookup always_ok true [sample_page])
         = Ok n -> n = 0%Z).
Proof.
  exact (dry_run_never_writes default_props sample_lookup always_ok
           [sample_page]).
Defined.

(** X14.  [run] makes at most one lookup per page and at most one write
    per lookup, and when it ends without an exception the count of
    updated pages is the number of PATCH requests made. *)
Theorem run_counts_its_writes (props : PropertyConfig.t)
        (lookup : string -> result json)
        (patch : json -> payload -> result unit) (dry_run : bool)
        (pages : list json) :
  let trace := fst (run props lookup patch dry_run pages) in
  List.length (patches trace) <= List.length (lookups trace)
  /\ List.length (lookups trace) <= List.length pages
  /\ (forall n,
         snd (run props lookup patch dry_run pages) = Ok n ->
         n = Z.of_nat (List.length (patches trace))).
Proof.
  destruct (run props lookup patch dry_run pages) as [trace r] eqn:H.
  apply run_facts_hold in H as (F1 & F2 & _ & F4 & _). cbn [fst snd].
  split; [exact F2|]. split; [exact F1|].
  intros n E. rewrite (F4 n E). lia.
Qed.

Lemma run_counts_its_writes_witness :
  1%Z = Z.of_nat
          (List.length
             (patches (fst (run default_props sample_lookup always_ok false
                                [sample_page; filled_page])))).
Proof.
  exact (proj2 (proj2 (run_counts_its_writes default_props sample_lookup
                         always_ok false [sample_page; filled_page]))
               1%Z eq_refl).
Defined.

Lemma reconcile_update_keys (props : PropertyConfig.t)
      (lookup : string -> result json)
      (page properties : json) (update : payload) :
  snd (reconcile props lookup page) = Ok update ->
  properties_of page = Ok properties ->
  forall k, In k (keys update) ->
            In (Some k) (tracked props) /\ fillable properties k.
Proof.
  unfold reconcile. intros H Hp k Hin.
  assert (update = []
          \/ exists metadata,
              _build_update_payload props page metadata = Ok update)
    as [-> | [metadata Hb]].
  { destruct (_extract_title props page) as [title|]; [|discriminate H].
    destruct (title =? ""); [left; simpl in H; congruence|].
    destruct (_missing_fields props page) as [missing|]; [|discriminate H].
    destruct (TextWrap.is_nil missing); [left; simpl in H; congruence|].
    destruct (lookup title) as [metadata|]; [|discriminate H].
    destruct (truthy metadata); simpl in H;
      [right; now exists metadata | left; congruence]. }
  - destruct Hin.
  - apply in_keys in Hin as [v Hin].
    destruct (build_update_payload_entries _ _ _ _ _ Hb Hp k v Hin)
      as (Ht & _ & F & _).
    now split.
Qed.

(** X15.  Every PATCH request [run] makes carries a non-empty payload
    and goes to a page of the list; each property it names is a tracked
    property that is on that page and holds no value (per-kind
    presence). *)
Theorem run_writes_only_empty_tracked_properties (props : PropertyConfig.t)
        (lookup : string -> result json)
        (patch : json -> payload -> result unit) (dry_run : bool)
        (pages : list json) (id : json) (update : payload) :
  In (Patch id update) (fst (run props lookup patch dry_run pages)) ->
  update <> []
  /\ exists page,
      In page pages
      /\ getitem page "id" = Ok id
      /\ forall properties name,
          properties_of page = Ok properties ->
          In name (keys update) ->
          In (Some name) (tracked props)
          /\ exists prop, get properties name = Ok prop
                          /\ truthy prop = true
                          /\ ~ holds_value prop.
Proof.
  destruct (run props lookup patch dry_run pages) as [trace r] eqn:H.
  apply run_facts_hold in H as (_ & _ & _ & _ & F5 & _). cbn [fst].
  intros Hin. destruct (F5 _ _ Hin) as (Hne & page & Hp & Hid & Hr).
  split; [exact Hne|]. exists page. split; [exact Hp|]. split; [exact Hid|].
  intros properties name Hprops Hk.
  destruct (reconcile_update_keys _ _ _ _ _ Hr Hprops name Hk)
    as (Ht & prop & G & T & V).
  split; [exact Ht|]. exists prop. split; [exact G|]. split; [exact T|].
  intros Hv. apply property_has_value_true in Hv. congruence.
Qed.

Lemma run_writes_only_empty_tracked_properties_witness :
  first_update <> []
  /\ exists page,
      In page [sample_page]
      /\ getitem page "id" = Ok (JStr "page-1")
      /\ forall properties name,
          properties_of page = Ok properties ->
          In name (keys first_update) ->
          In (Some name) (tracked default_props)
          /\ exists prop, get properties name = Ok prop
                          /\ truthy prop = true
                          /\ ~ holds_value prop.
Proof.
  apply (run_writes_only_empty_tracked_properties default_props sample_lookup
           always_ok false [sample_page] (JStr "page-1") first_update).
  vm_compute. tauto.
Defined.

(** X16.  Every lookup [run] makes queries the title extracted from a
    page of the list; the query is never empty and has no leading or
    trailing whitespace. *)
Theorem lookups_query_page_titles (props : PropertyConfig.t)
        (lookup : string -> result json)
        (patch : json -> payload -> result unit) (dry_run : bool)
        (pages : list json) (title : string) :
  In (Lookup title) (fst (run props lookup patch dry_run pages)) ->
  title <> "" /\ strip title = title
  /\ exists page, In page pages /\ _extract_title props page = Ok title.
Proof.
  destruct (run props lookup patch dry_run pages) as [trace r] eqn:H.
  apply run_facts_hold in H as (_ & _ & _ & _ & _ & F6). cbn [fst].
  intros Hin. destruct (F6 _ Hin) as (page & Hp & Ht & Hn).
  split; [exact Hn|]. split; [exact (extract_title_trimmed _ _ _ Ht)|].
  exists page. now split.
Qed.

Lemma lookups_query_page_titles_witness :
  "Foo Bar" <> "" /\ strip "Foo Bar" = "Foo Bar"
  /\ exists page,
      In page [padded_title_page]
      /\ _extract_title default_props page = Ok "Foo Bar".
Proof.
  apply (lookups_query_page_titles default_props sample_lookup always_ok true
           [padded_title_page] "Foo Bar").
  vm_compute. tauto.
Defined.

(** The dry run, page by page, beside the run that writes. *)
Lemma dry_run_loop_preview (props : PropertyConfig.t)
      (lookup : string -> result json)
      (patch : json -> payload -> result unit) (pages : list json) :
  forall trace updated trace' n,
    run_loop props lookup patch false pages trace updated = (trace', Ok n) ->
    exists new,
      trace' = (trace ++ new)%list
      /\ forall trace0 updated0,
          run_loop props lookup patch true pages trace0 updated0
          = ((trace0 ++ lookups new)%list, Ok updated0).
Proof.
  induction pages as [|page rest IH]; intros trace updated trace' n H.
  - inversion H; subst. exists []. rewrite app_nil_r. split; [reflexivity|].
    intros trace0 updated0. simpl. now rewrite app_nil_r.
  - cbn [run_loop] in H |- *.
    destruct (reconcile props lookup page) as [q outcome] eqn:R.
    destruct outcome as [update|e]; [|discriminate H].
    rewrite orb_false_r in H.
    destruct (TextWrap.is_nil update) eqn:Hnil.
    + apply IH in H as (new & -> & Hd).
      exists (map Lookup q ++ new)%list. split; [now rewrite app_assoc|].
      intros trace0 updated0. rewrite orb_true_r.
      rewrite Hd, lookups_app, lookups_map_lookup. now rewrite app_assoc.
    + destruct (getitem page "id") as [page_id|e]; [|discriminate H].
      destruct (patch page_id update) as [[]|e]; [|discriminate H].
      apply IH in H as (new & -> & Hd).
      exists (map Lookup q ++ [Patch page_id update] ++ new)%list.
      split; [now rewrite !app_assoc|].
      intros trace0 updated0. rewrite orb_true_r.
      rewrite Hd, !lookups_app, lookups_map_lookup. cbn [lookups filter is_lookup app].
      now rewrite app_assoc.
Qed.

(** X17.  The dry run previews the run that writes: when the run with
    [dry_run=False] ends without an exception, the run with
    [dry_run=True] over the same pages makes exactly its lookups, in the
    same order, and updates nothing. *)
Theorem dry_run_previews_the_lookups (props : PropertyConfig.t)
        (lookup : string -> result json)
        (patch : json -> payload -> result unit) (pages : list json)
        (trace : list event) (n : Z) :
  run props lookup patch false pages = (trace, Ok n) ->
  run props lookup patch true pages = (lookups trace, Ok 0%Z).
Proof.
  unfold run. intros H.
  apply dry_run_loop_preview in H as (new & -> & Hd).
  now rewrite (Hd [] 0%Z).
Qed.

Lemma dry_run_previews_the_lookups_witness :
  run default_props sample_lookup always_ok true [sample_page; filled_page]
  = ([Lookup "Foo Bar"], Ok 0%Z).
Proof.
  apply (dry_run_previews_the_lookups default_props sample_lookup always_ok
           [sample_page; filled_page]
           [Lookup "Foo Bar"; Patch (JStr "page-1") first_update] 1%Z).
  reflexivity.
Defined.

(* ------------------------------------------------------------------ *)
(** ** The record source *)

Lemma paged_next (request : payload) (cursor : json) :
  paged request -> dict_set request "start_cursor" cursor = next_request cursor.
Proof. intros [-> | [c ->]]; reflexivity. Qed.

Lemma iter_pages_loop_spec (post : payload -> result json) :
  forall fuel request sent yielded,
    paged request ->
    exists new,
      fst (iter_pages_loop post fuel request sent yielded) = (sent ++ new)%list
      /\ List.length new <= fuel
      /\ (fuel <> 0 -> hd_error new = Some request)
      /\ chained post new
      /\ (forall r e, In r new -> post r = Raise e ->
                      snd (iter_pages_loop post fuel request sent yielded)
                      = Some (Raise e))
      /\ (forall pages,
             snd (iter_pages_loop post fuel request sent yielded)
             = Some (Ok pages) ->
             exists batches,
               Forall2 (fun r b => exists data,
                            post r = Ok data /\ records_of data = Ok b)
                       new batches
               /\ pages = (yielded ++ List.concat batches)%list
               /\ exists final data has_more,
                   last new first_request = final /\ new <> []
                   /\ post final = Ok data
                   /\ get data "has_more" = Ok has_more
                   /\ truthy has_more = false).
Proof.
  induction fuel as [|fuel IH]; intros request sent yielded P.
  - exists []. cbn [iter_pages_loop fst snd]. rewrite app_nil_r.
    repeat split; auto; try easy.
  - cbn [iter_pages_loop].
    destruct (post request) as [data|e] eqn:Ep.
    2:{ exists [request]. cbn [fst snd List.length hd_error chained].
        repeat split; auto; try lia; try easy.
        intros r e' [<- | []] H. congruence. }
    destruct (records_of data) as [records|e] eqn:Er.
    2:{ exists [request]. cbn [fst snd List.length hd_error chained].
        repeat split; auto; try lia; try easy.
        intros r e' [<- | []] H. congruence. }
    destruct (get data "has_more") as [has_more|e] eqn:Eh.
    2:{ exists [request]. cbn [fst snd List.length hd_error chained].
        repeat split; auto; try lia; try easy.
        intros r e' [<- | []] H. congruence. }
    destruct (truthy has_more) eqn:T; cbn [negb].
    2:{ exists [request]. cbn [fst snd List.length hd_error chained].
        repeat split; auto; try lia; try easy.
        - intros r e' [<- | []] H. congruence.
        - intros pages H. inversion H; subst pages. exists [records].
          split; [repeat constructor; now exists data|].
          split; [simpl; now rewrite app_nil_r|].
          exists request, data, has_more. now repeat split. }
    destruct (getitem data "next_cursor") as [cursor|e] eqn:Ec.
    2:{ exists [request]. cbn [fst snd List.length hd_error chained].
        repeat split; auto; try lia; try easy.
        intros r e' [<- | []] H. congruence. }
    rewrite (paged_next request cursor P).
    destruct (IH (next_request cursor) (sent ++ [request])%list
                 (yielded ++ records)%list)
      as (new & Hs & Hl & Hh & Hc & He & Hr); [right; now exists cursor|].
    exists (request :: new). rewrite Hs, <- app_assoc.
    split; [reflexivity|]. split; [simpl; lia|]. split; [reflexivity|].
    split; [|split].
    + destruct new as [|r' rest]; [exact I|]. split; [|exact Hc].
      assert (r' = next_request cursor) as ->.
      { destruct fuel; [simpl in Hl; lia|].
        assert (S fuel <> 0) as NZ by lia.
        specialize (Hh NZ). simpl in Hh. congruence. }
      exists data, has_more, cursor. now repeat split.
    + intros r e [<- | Hin] H; [congruence|]. now apply (He r e).
    + intros pages H. destruct (Hr pages H)
        as (batches & F & -> & final & d & hm & L & NE & Pf & Gh & Tf).
      exists (records :: batches). split.
      * constructor; [now exists data | exact F].
      * split; [simpl; now rewrite app_assoc|].
        exists final, d, hm. repeat split; auto; [|discriminate].
        destruct new; [congruence|]. exact L.
Qed.

Lemma chained_split (post : payload -> result json)
      (before : list payload) (r r' : payload) (after : list payload) :
  chained post (before ++ r :: r' :: after) -> follows post r r'.
Proof.
  induction before as [|b rest IH]; simpl.
  - now intros [H _].
  - destruct (rest ++ r :: r' :: after)%list eqn:E;
      [destruct rest; discriminate|].
    intros [_ H]. apply IH. exact H.
Qed.

(** X18.  [_iter_pages] sends at most one request per turn of its loop;
    the first request is [{"page_size": 100}], and each later request
    follows a response with a truthy [has_more] and carries the page
    size and, as [start_cursor], the [next_cursor] of that response (the
    cursor replaces the previous one). *)
Theorem page_requests_follow_the_cursor (post : payload -> result json)
        (fuel : nat) :
  let sent := fst (_iter_pages post fuel) in
  List.length sent <= fuel
  /\ (fuel <> 0 -> hd_error sent = Some [("page_size", JInt 100)])
  /\ forall before request request' after,
      sent = (before ++ request :: request' :: after)%list ->
      exists data has_more cursor,
        post request = Ok data
        /\ get data "has_more" = Ok has_more /\ truthy has_more = true
        /\ getitem data "next_cursor" = Ok cursor
        /\ request' = [("page_size", JInt 100); ("start_cursor", cursor)].
Proof.
  unfold _iter_pages.
  destruct (iter_pages_loop_spec post fuel first_request [] [])
    as (new & Hs & Hl & Hh & Hc & _); [now left|].
  cbn zeta. rewrite Hs. cbn [app].
  split; [exact Hl|]. split; [exact Hh|].
  intros before request request' after E. rewrite E in Hc.
  exact (chained_split _ _ _ _ _ Hc).
Qed.

Lemma page_requests_follow_the_cursor_witness :
  exists data has_more cursor,
    paged_server [[JInt 1]; [JInt 2]] [("page_size", JInt 100)] = Ok data
    /\ get data "has_more" = Ok has_more /\ truthy has_more = true
    /\ getitem data "next_cursor" = Ok cursor
    /\ [("page_size", JInt 100); ("start_cursor", JInt 1)]
       = [("page_size", JInt 100); ("start_cursor", cursor)].
Proof.
  apply (proj2 (proj2 (page_requests_follow_the_cursor
                         (paged_server [[JInt 1]; [JInt 2]]) 4))
           [] _ _ []).
  reflexivity.
Defined.

(** X19.  When [_iter_pages] ends without an exception, every request
    sent was answered, the records returned are the [results] of the
    responses, concatenated in the order of the requests, and the last
    response had a falsy [has_more]. *)
Theorem pages_are_the_batches_in_order (post : payload -> result json)
        (fuel : nat) (pages : list json) :
  snd (_iter_pages post fuel) = Some (Ok pages) ->
  exists batches,
    Forall2 (fun request batch =>
               exists data,
                 post request = Ok data /\ records_of data = Ok batch)
            (fst (_iter_pages post fuel)) batches
    /\ pages = List.concat batches
    /\ exists data has_more,
        post (last (fst (_iter_pages post fuel)) first_request) = Ok data
        /\ get data "has_more" = Ok has_more
        /\ truthy has_more = false.
Proof.
  unfold _iter_pages. intros H.
  destruct (iter_pages_loop_spec post fuel first_request [] [])
    as (new & Hs & _ & _ & _ & _ & Hr); [now left|].
  destruct (Hr pages H)
    as (batches & F & -> & final & d & hm & L & NE & Pf & Gh & Tf).
  rewrite Hs. cbn [app]. exists batches. split; [exact F|].
  split; [reflexivity|]. exists d, hm. rewrite L. now repeat split.
Qed.

Lemma pages_are_the_batches_in_order_witness :
  exists batches,
    Forall2 (fun request batch =>
               exists data,
                 paged_server [[JInt 1]; [JInt 2]] request = Ok data
                 /\ records_of data = Ok batch)
            (fst (_iter_pages (paged_server [[JInt 1]; [JInt 2]]) 4)) batches
    /\ [JInt 1; JInt 2] = List.concat batches
    /\ exists data has_more,
        paged_server [[JInt 1]; [JInt 2]]
          (last (fst (_iter_pages (paged_server [[JInt 1]; [JInt 2]]) 4))
                first_request)
        = Ok data
        /\ get data "has_more" = Ok has_more
        /\ truthy has_more = false.
Proof.
  apply (pages_are_the_batches_in_order (paged_server [[JInt 1]; [JInt 2]]) 4).
  reflexivity.
Defined.

(** X20.  A page fetch that fails is fatal to the whole run: when any
    request of [_iter_pages] raises, [run] raises the same exception
    without a single lookup or write, whatever the pages fetched before
    held. *)
Theorem failed_page_fetch_aborts_the_run (props : PropertyConfig.t)
        (post : payload -> result json)
        (lookup : string -> result json)
        (patch : json -> payload -> result unit)
        (dry_run : bool) (fuel : nat) (request : payload) (e : exn) :
  In request (fst (_iter_pages post fuel)) ->
  post request = Raise e ->
  run_archive props post lookup patch dry_run fuel
  = Some (fst (_iter_pages post fuel), [], Raise e).
Proof.
  unfold run_archive, _iter_pages. intros Hin Hp.
  destruct (iter_pages_loop_spec post fuel first_request [] [])
    as (new & Hs & _ & _ & _ & He & _); [now left|].
  rewrite Hs in Hin. cbn [app] in Hin.
  specialize (He request e Hin Hp).
  destruct (iter_pages_loop post fuel first_request [] []) as [sent r].
  cbn [fst snd] in *. now subst r.
Qed.

Lemma failed_page_fetch_aborts_the_run_witness :
  run_archive default_props failing_server sample_lookup always_ok false 9
  = Some ([[("page_size", JInt 100)];
           [("page_size", JInt 100); ("start_cursor", JStr "c1")]],
          [], Raise ValueError).
Proof.
  apply (failed_page_fetch_aborts_the_run default_props failing_server
           sample_lookup always_ok false 9
           [("page_size", JInt 100); ("start_cursor", JStr "c1")] ValueError).
  - vm_compute. tauto.
  - reflexivity.
Defined.

Lemma concat_skipn_step {A} (l : list (list A)) :
  forall i,
    List.concat (skipn i l) = (nth i l [] ++ List.concat (skipn (S i) l))%list.
Proof.
  induction l as [|x rest IH]; intros [|i]; try reflexivity.
  cbn [skipn nth]. now rewrite IH.
Qed.

Lemma paged_server_loop (batches : list (list json)) :
  forall fuel i request sent yielded,
    paged request ->
    cursor_of request = i ->
    1 <= fuel ->
    List.length batches - i <= fuel ->
    snd (iter_pages_loop (paged_server batches) fuel request sent yielded)
    = Some (Ok (yielded ++ List.concat (skipn i batches))%list)
    /\ List.length
         (fst (iter_pages_loop (paged_server batches) fuel request sent yielded))
       = List.length sent + Nat.max 1 (List.length batches - i).
Proof.
  induction fuel as [|fuel IH]; intros i request sent yielded P C F1 F2;
    [lia|].
  cbn [iter_pages_loop]. unfold paged_server at 1 3. rewrite C.
  cbv zeta. unfold records_of.
  cbn [get_default get assoc String.eqb Ascii.eqb Bool.eqb bind iter getitem].
  rewrite (concat_skipn_step batches i).
  destruct (Nat.ltb_spec (S i) (List.length batches)) as [Lt | Ge];
    cbn [truthy negb].
  - rewrite (paged_next request _ P).
    destruct (IH (S i) (next_request (JInt (Z.of_nat (S i))))
                 (sent ++ [request])%list
                 (yielded ++ nth i batches [])%list) as [R L];
      [right; now eexists | | lia | lia |].
    { unfold cursor_of, next_request.
      cbn [assoc String.eqb Ascii.eqb Bool.eqb]. apply Nat2Z.id. }
    rewrite R, L, <- app_assoc, length_app. split; [reflexivity|].
    cbn [List.length]. lia.
  - rewrite (skipn_all2 batches) by lia. cbn [fst snd List.concat].
    rewrite app_nil_r, length_app. split; [reflexivity|].
    cbn [List.length]. lia.
Qed.

(** X21.  Against a record source that serves its batches one per
    request, naming the next batch by a cursor, [_iter_pages] ends: it
    returns the records of all batches in order after one request per
    batch (one request when there is no batch). *)
Theorem all_pages_are_read_in_order (batches : list (list json))
        (fuel : nat) :
  1 <= fuel ->
  List.length batches <= fuel ->
  snd (_iter_pages (paged_server batches) fuel)
  = Some (Ok (List.concat batches))
  /\ List.length (fst (_iter_pages (paged_server batches) fuel))
     = Nat.max 1 (List.length batches).
Proof.
  intros F1 F2. unfold _iter_pages.
  destruct (paged_server_loop batches fuel 0 first_request [] [])
    as [R L]; [now left | reflexivity | exact F1 | lia |].
  rewrite R, L, Nat.sub_0_r. split; reflexivity.
Qed.

Lemma all_pages_are_read_in_order_witness :
  snd (_iter_pages (paged_server [[JInt 1; JInt 2]; []; [JInt 3]]) 5)
  = Some (Ok [JInt 1; JInt 2; JInt 3])
  /\ List.length
       (fst (_iter_pages (paged_server [[JInt 1; JInt 2]; []; [JInt 3]]) 5))
     = 3.
Proof.
  apply (all_pages_are_read_in_order [[JInt 1; JInt 2]; []; [JInt 3]] 5);
    simpl; lia.
Defined.
